(** * changesets-gitlab: the comment reconciliation protocol ([src/comment.ts])

    A shallow embedding of [comment.ts] and the properties its specification
    states about it.

    Conventions of the embedding.
    - A JavaScript string is a [string]: the bytes of its UTF-8 encoding (the
      strings of a run are well formed).  [includes], [startsWith] and [===]
      on well-formed strings agree with their byte-wise versions.
    - The two regular expressions of the file are kept as syntax ([regex]) and
      run by a backtracking matcher written in the continuation style of the
      ECMAScript specification (greedy quantifiers, ordered alternatives, one
      capture group, search over the start positions).
    - [markdownTable] (npm [markdown-table]) is a parameter of the
      development; [humanId], the platform API, [getUsername] and
      [getChangedPackages] are answers of the [World] a run executes in.
    - An [async] function is a computation in the monad [M]: it threads the
      log of the observable calls and the one mutable local of [comment], and
      it either resolves or rejects with a JavaScript value. *)

From Stdlib Require Import String Ascii List Bool Arith ZArith Lia DecimalString.
Import ListNotations.
Open Scope string_scope.
Open Scope bool_scope.

(** ** Strings *)

Definition nl : string := String "010"%char "".
Definition dquote : string := String "034"%char "".

(** [s.includes(needle)] *)
Fixpoint includes (s needle : string) : bool :=
  if String.prefix needle s then true
  else match s with
       | EmptyString => false
       | String _ s' => includes s' needle
       end.

(** [s.startsWith(p)] *)
Definition startsWith (s p : string) : bool := String.prefix p s.

(** [`${n}`] for a length *)
Definition decimal (n : nat) : string := NilEmpty.string_of_uint (Nat.to_uint n).

(** [xs.join(sep)] *)
Definition join (sep : string) (xs : list string) : string := String.concat sep xs.

Definition inRange (lo hi a : ascii) : bool :=
  Nat.leb (nat_of_ascii lo) (nat_of_ascii a) && Nat.leb (nat_of_ascii a) (nat_of_ascii hi).

Definition isDigit (a : ascii) : bool := inRange "0" "9" a.
Definition isLower (a : ascii) : bool := inRange "a" "z" a.
Definition isUpper (a : ascii) : bool := inRange "A" "Z" a.
Definition isAlnum (a : ascii) : bool := isDigit a || isLower a || isUpper a.

Definition toUpper (a : ascii) : ascii :=
  if isLower a then ascii_of_nat (nat_of_ascii a - 32) else a.
Definition toLower (a : ascii) : ascii :=
  if isUpper a then ascii_of_nat (nat_of_ascii a + 32) else a.

Definition hexDigit (n : nat) : ascii :=
  nth n (list_ascii_of_string "0123456789ABCDEF") "0"%char.

Definition uriUnreserved (a : ascii) : bool :=
  isAlnum a || existsb (Ascii.eqb a) (list_ascii_of_string "-_.!~*'()").

(** [encodeURIComponent]: every byte outside the unreserved set is escaped. *)
Fixpoint encodeURIComponent (s : string) : string :=
  match s with
  | EmptyString => ""
  | String a s' =>
      (if uriUnreserved a then String a ""
       else String "%" (String (hexDigit (nat_of_ascii a / 16))
                          (String (hexDigit (nat_of_ascii a mod 16)) "")))
      ++ encodeURIComponent s'
  end.

(** ** Regular expressions *)

Module Regex.

(** Character classes.  [CDot] is [.] without the [s] flag: any character but
    a line terminator (LF, CR, U+2028, U+2029; the last two are the byte
    sequences E2 80 A8 and E2 80 A9). *)
Inductive cls :=
| CDigit
| CWord
| CDot
| CRange (lo hi : ascii)
| CUnion (c1 c2 : cls).

Definition startsLineTerminator (s : string) : bool :=
  match s with
  | String a s1 =>
      Ascii.eqb a "010" || Ascii.eqb a "013" ||
      (Ascii.eqb a "226" &&
       match s1 with
       | String b (String c _) =>
           Ascii.eqb b "128" && (Ascii.eqb c "168" || Ascii.eqb c "169")
       | _ => false
       end)
  | EmptyString => false
  end.

(** Equality of two characters under the flag [i] (no [u] flag): the
    canonical form is the upper case of an ASCII letter, and no character
    outside ASCII is folded onto an ASCII one. *)
Definition charEq (ignoreCase : bool) (a b : ascii) : bool :=
  Ascii.eqb a b || (ignoreCase && Ascii.eqb (toUpper a) (toUpper b)).

(** [clsMatch i c s]: does the first character of the (non-empty) input [s]
    belong to [c]. *)
Fixpoint clsMatch (ignoreCase : bool) (c : cls) (s : string) : bool :=
  match s with
  | EmptyString => false
  | String a _ =>
      match c with
      | CDigit => isDigit a
      | CWord => isAlnum a || Ascii.eqb a "_"
      | CDot => negb (startsLineTerminator s)
      | CRange lo hi =>
          inRange lo hi a ||
          (ignoreCase && (inRange lo hi (toLower a) || inRange lo hi (toUpper a)))
      | CUnion c1 c2 => clsMatch ignoreCase c1 s || clsMatch ignoreCase c2 s
      end
  end.

(** The fragment of the pattern language the file uses; the patterns have at
    most one capture group. *)
Inductive regex :=
| RBol                        (* ^ *)
| REol                        (* $ *)
| RLit (s : string)           (* literal characters *)
| RStar (c : cls)             (* c*, greedy *)
| RPlus (c : cls)             (* c+, greedy *)
| RSeq (r1 r2 : regex)
| RAlt (r1 r2 : regex)        (* (?:r1|r2) *)
| RCapture (r : regex).       (* (r), group 1 *)

Record MState := mkMState {
  consumed : nat;             (* index of the current position *)
  rest : string;              (* input from the current position on *)
  cap1 : option string        (* capture 1, when it took part *)
}.

Definition Cont := MState -> option MState.

(** The rest of [s] after the literal [lit], when [s] starts with it. *)
Fixpoint litRest (ignoreCase : bool) (lit s : string) : option string :=
  match lit, s with
  | EmptyString, _ => Some s
  | String a lit', String b s' =>
      if charEq ignoreCase a b then litRest ignoreCase lit' s' else None
  | String _ _, EmptyString => None
  end.

(** Greedy iteration of a class: take one more character when possible, and
    fall back to stopping here when the continuation fails further on. *)
Fixpoint star (ignoreCase : bool) (c : cls) (n : nat) (s : string)
         (cap : option string) (k : Cont) : option MState :=
  match s with
  | String _ s' =>
      if clsMatch ignoreCase c s then
        match star ignoreCase c (S n) s' cap k with
        | Some r => Some r
        | None => k (mkMState n s cap)
        end
      else k (mkMState n s cap)
  | EmptyString => k (mkMState n s cap)
  end.

Fixpoint m (ignoreCase : bool) (r : regex) (x : MState) (k : Cont) : option MState :=
  match r with
  | RBol => if Nat.eqb (consumed x) 0 then k x else None
  | REol => match rest x with EmptyString => k x | _ => None end
  | RLit lit =>
      match litRest ignoreCase lit (rest x) with
      | Some s' => k (mkMState (consumed x + String.length lit) s' (cap1 x))
      | None => None
      end
  | RStar c => star ignoreCase c (consumed x) (rest x) (cap1 x) k
  | RPlus c =>
      match rest x with
      | String _ s' =>
          if clsMatch ignoreCase c (rest x)
          then star ignoreCase c (S (consumed x)) s' (cap1 x) k
          else None
      | EmptyString => None
      end
  | RSeq r1 r2 => m ignoreCase r1 x (fun y => m ignoreCase r2 y k)
  | RAlt r1 r2 =>
      match m ignoreCase r1 x k with
      | Some z => Some z
      | None => m ignoreCase r2 x k
      end
  | RCapture r1 =>
      m ignoreCase r1 x
        (fun y => k (mkMState (consumed y) (rest y)
                       (Some (substring 0 (consumed y - consumed x) (rest x)))))
  end.

(** The search of [RegExp.prototype.exec] (no [g] or [y] flag): the first
    start position, from 0, at which the pattern matches. *)
Fixpoint search (ignoreCase : bool) (r : regex) (n : nat) (s : string) : option MState :=
  match m ignoreCase r (mkMState n s None) Some with
  | Some z => Some z
  | None =>
      match s with
      | String _ s' => search ignoreCase r (S n) s'
      | EmptyString => None
      end
  end.

(** [s.match(re)]: [None] is [null]; [Some c] is the match array, [c] its
    element 1 ([None] being [undefined]). *)
Definition exec (ignoreCase : bool) (r : regex) (s : string) : option (option string) :=
  option_map cap1 (search ignoreCase r 0 s).

(** [re.test(s)] *)
Definition test (ignoreCase : bool) (r : regex) (s : string) : bool :=
  match search ignoreCase r 0 s with Some _ => true | None => false end.

(** Every character of [u] belongs to [c], [u] being followed by [v]. *)
Fixpoint allMatch (ignoreCase : bool) (c : cls) (u v : string) : bool :=
  match u with
  | EmptyString => true
  | String a u' => clsMatch ignoreCase c (String a (u' ++ v)) && allMatch ignoreCase c u' v
  end.

End Regex.
Import Regex.

(** ** Data model *)

(** [VersionType] of [@changesets/types] *)
Inductive VersionType := major | minor | patch | none.

Definition VersionType_eqb (a b : VersionType) : bool :=
  match a, b with
  | major, major | minor, minor | patch, patch | none, none => true
  | _, _ => false
  end.

Record ComprehensiveRelease := mkRelease {
  name : string;
  type : VersionType;
  oldVersion : string;
  newVersion : string
}.

Record NewChangeset := mkChangeset {
  changeset_id : string;
  summary : string
}.

Record ReleasePlan := mkReleasePlan {
  changesets : list NewChangeset;
  releases : list ComprehensiveRelease
}.

(** What the platform returns for a note: [NoteSchema], [DiscussionNoteSchema]. *)
Record NoteSchema := mkNote {
  note_id : Z;
  author_username : string;      (* note.author.username *)
  body : string
}.

(** An element of [MergeRequestNotes.all]. *)
Record MergeRequestNoteSchema := mkMrNote {
  mr_note : NoteSchema;
  noteable_type : string
}.

(** An element of [MergeRequestDiscussions.all]; [notes] is optional. *)
Record DiscussionSchema := mkDiscussion {
  discussion_id : string;
  notes : option (list NoteSchema)
}.

(** [DiscussionSchema | MergeRequestNoteSchema] *)
Inductive DiscussionOrNote :=
| ADiscussion (d : DiscussionSchema)
| ANote (n : MergeRequestNoteSchema).

(** What [getNoteInfo] returns: [{ discussionId, noteId }] or [{ noteId }]. *)
Record NoteInfo := mkNoteInfo {
  discussionId : option string;
  noteId : Z
}.

(** An element of [MergeRequestChangesSchema.changes]. *)
Record Change := mkChange {
  new_path : string;
  new_file : bool
}.

(** JavaScript values, as far as thrown values and their [cause] go.
    [VBody] is a [Request] or [Response], whose [text()] resolves ([Some]) or
    rejects ([None]); [VObject] is a plain object with its own enumerable
    properties in order; [VError] is an [Error], [isValidation] telling an
    instance of [ValidationError], [cause] being [VUndefined] when there is
    none.  An [Error], a [Request] and a [Response] have no own enumerable
    property. *)
#[local] Set Warnings "-register-all".
Inductive JsValue :=
| VUndefined
| VNull
| VBool (b : bool)
| VNumber (z : Z)
| VString (s : string)
| VBody (text : option string)
| VObject (props : list (string * JsValue))
| VError (isValidation : bool) (message : string) (cause : JsValue).

(** The outcome of a promise. *)
Inductive Result (A : Type) :=
| Resolved (a : A)
| Rejected (e : JsValue).
Arguments Resolved {A} a.
Arguments Rejected {A} e.

Definition mapResult {A B : Type} (f : A -> B) (r : Result A) : Result B :=
  match r with
  | Resolved a => Resolved (f a)
  | Rejected e => Rejected e
  end.

(** [MergeRequestChangesSchema] *)
Record MergeRequestChangesSchema := mkChanges {
  changes : list Change
}.

(** ** Message composer *)

Definition generatedByBotNote : string := "Generated By Changesets GitLab Bot".

Section Bot.

(** [markdownTable] of the package [markdown-table]; a cell may be
    [undefined]. *)
Variable markdownTable : list (list (option string)) -> string.

(** [{ major: 'Major', minor: 'Minor', patch: 'Patch' }[t]] *)
Definition typeLabel (t : VersionType) : option string :=
  match t with
  | major => Some "Major"
  | minor => Some "Minor"
  | patch => Some "Patch"
  | none => None
  end.

Definition publishable (releasePlan : ReleasePlan) : list ComprehensiveRelease :=
  filter (fun x => negb (VersionType_eqb (type x) none)) (releases releasePlan).

Definition tableRows (releasePlan : ReleasePlan) : list (list (option string)) :=
  [Some "Name"; Some "Type"]
    :: map (fun x => [Some (name x); typeLabel (type x)]) (publishable releasePlan).

Definition noTablePlaceholder : string :=
  "When changesets are added to this MR, you'll see the packages that this MR includes changesets for and the associated semver types".

Definition getReleasePlanMessage (releasePlan : option ReleasePlan) : string :=
  match releasePlan with
  | None => ""
  | Some releasePlan =>
      let publishableReleases := publishable releasePlan in
      let table := markdownTable (tableRows releasePlan) in
      "<details><summary>This MR includes "
      ++ (if Nat.ltb 0 (List.length (changesets releasePlan))
          then "changesets to release "
               ++ (if Nat.eqb (List.length publishableReleases) 1
                   then "1 package"
                   else decimal (List.length publishableReleases) ++ " packages")
          else "no changesets")
      ++ "</summary>" ++ nl ++ nl ++ "  "
      ++ (if Nat.ltb 0 (List.length publishableReleases)
          then table
          else noTablePlaceholder)
      ++ nl ++ nl ++ "</details>"
  end.

Definition getAbsentMessage (commitSha addChangesetUrl : string)
           (releasePlan : option ReleasePlan) : string :=
  "###  ⚠️  No Changeset found" ++ nl ++ nl
  ++ "Latest commit: " ++ commitSha ++ nl ++ nl
  ++ "Merging this MR will not cause a version bump for any packages. If these changes should not result in a new version, you're good to go. **If these changes should result in a version bump, you need to add a changeset.**"
  ++ nl ++ nl
  ++ getReleasePlanMessage releasePlan ++ nl ++ nl
  ++ "[Click here to learn what changesets are, and how to add one](https://github.com/changesets/changesets/blob/master/docs/adding-a-changeset.md)."
  ++ nl ++ nl
  ++ "[Click here if you're a maintainer who wants to add a changeset to this MR]("
  ++ addChangesetUrl ++ ")" ++ nl ++ nl
  ++ "__" ++ generatedByBotNote ++ "__" ++ nl.

Definition getApproveMessage (commitSha addChangesetUrl : string)
           (releasePlan : option ReleasePlan) : string :=
  "###  🦋  Changeset detected" ++ nl ++ nl
  ++ "Latest commit: " ++ commitSha ++ nl ++ nl
  ++ "**The changes in this MR will be included in the next version bump.**"
  ++ nl ++ nl
  ++ getReleasePlanMessage releasePlan ++ nl ++ nl
  ++ "Not sure what this means? [Click here  to learn what changesets are](https://github.com/changesets/changesets/blob/master/docs/adding-a-changeset.md)."
  ++ nl ++ nl
  ++ "[Click here if you're a maintainer who wants to add another changeset to this MR]("
  ++ addChangesetUrl ++ ")" ++ nl ++ nl
  ++ "__" ++ generatedByBotNote ++ "__" ++ nl.

Definition getNewChangesetTemplate (changedPackages : list string) (title : string) : string :=
  encodeURIComponent
    ("---" ++ nl
     ++ join nl (map (fun x => dquote ++ x ++ dquote ++ ": patch") changedPackages) ++ nl
     ++ "---" ++ nl ++ nl
     ++ title ++ nl).

(** ** Note locator *)

Definition isMrNote (discussionOrNote : DiscussionOrNote) : bool :=
  match discussionOrNote with
  | ANote n => String.eqb (noteable_type n) "MergeRequest"
  | ADiscussion _ => false       (* no property [noteable_type] *)
  end.

(** The pattern, piece by piece:
    ^ ( (?:project|group) _ \d+ _bot \w* ) _ [\da-z]+ $   with the flag i *)
Definition RANDOM_BOT_NAME_PATTERN : regex :=
  RSeq RBol
    (RSeq (RCapture
             (RSeq (RAlt (RLit "project") (RLit "group"))
                (RSeq (RLit "_")
                   (RSeq (RPlus CDigit)
                      (RSeq (RLit "_bot") (RStar CWord))))))
       (RSeq (RLit "_")
          (RSeq (RPlus (CUnion CDigit (CRange "a" "z"))) REol))).

(** [s.match(RANDOM_BOT_NAME_PATTERN)?.[1] === username] *)
Definition randomNameIs (s username : string) : bool :=
  match exec true RANDOM_BOT_NAME_PATTERN s with
  | Some (Some base) => String.eqb base username
  | _ => false
  end.

(** An absent [random] is [false]. *)
Definition isChangesetBotNote (note : NoteSchema) (username : string) (random : bool) : bool :=
  (String.eqb (author_username note) username
   || (random && randomNameIs (author_username note) username))
  && includes (body note) generatedByBotNote.

(** The loop of [getNoteInfo] over the listing. *)
Fixpoint scanNotes (discussionOrNotes : list DiscussionOrNote) (username : string)
         (random : bool) : option NoteInfo :=
  match discussionOrNotes with
  | [] => None
  | discussionOrNote :: others =>
      match discussionOrNote with
      | ANote n =>
          if isMrNote discussionOrNote then
            if isChangesetBotNote (mr_note n) username random
            then Some (mkNoteInfo None (note_id (mr_note n)))
            else scanNotes others username random
          else scanNotes others username random   (* no property [notes] *)
      | ADiscussion d =>
          match notes d with
          | None => scanNotes others username random
          | Some ns =>
              match find (fun note => isChangesetBotNote note username false) ns with
              | Some changesetBotNote =>
                  Some (mkNoteInfo (Some (discussion_id d)) (note_id changesetBotNote))
              | None => scanNotes others username random
              end
          end
      end
  end.

(** ** Changeset detection *)

(** The pattern, piece by piece:  ^ \.changeset\/ .+ \.md $   with no flag *)
Definition CHANGESET_FILE_PATTERN : regex :=
  RSeq RBol (RSeq (RLit ".changeset/") (RSeq (RPlus CDot) (RSeq (RLit ".md") REol))).

Definition isNewChangesetFile (file : Change) : bool :=
  new_file file
  && test false CHANGESET_FILE_PATTERN (new_path file)
  && negb (String.eqb (new_path file) ".changeset/README.md").

(** Awaiting an existing promise has no effect of its own: the function maps
    the outcome of [changedFilesPromise]. *)
Definition hasChangesetBeenAdded (changedFilesPromise : Result MergeRequestChangesSchema)
  : Result bool :=
  match changedFilesPromise with
  | Resolved changedFiles => Resolved (existsb isNewChangesetFile (changes changedFiles))
  | Rejected e => Rejected e
  end.

(** ** Platform errors *)

Definition GITLAB_API_ERROR_CAUSE_KEYS : list string :=
  ["description"; "request"; "response"].

Definition isError (value : JsValue) : bool :=
  match value with VError _ _ _ => true | _ => false end.

(** [!!v] *)
Definition truthy (v : JsValue) : bool :=
  match v with
  | VUndefined | VNull => false
  | VBool b => b
  | VNumber z => negb (Z.eqb z 0)
  | VString s => negb (String.eqb s "")
  | VBody _ | VObject _ | VError _ _ _ => true
  end.

(** [typeof v === 'object'] *)
Definition typeofObject (v : JsValue) : bool :=
  match v with
  | VNull | VBody _ | VObject _ | VError _ _ _ => true
  | _ => false
  end.

(** [Object.keys(v)] of a value that is an object *)
Definition objectKeys (v : JsValue) : list string :=
  match v with
  | VObject props => map fst props
  | _ => []
  end.

(** [error.cause] *)
Definition causeOf (error : JsValue) : JsValue :=
  match error with VError _ _ c => c | _ => VUndefined end.

Definition isGitLabAPIError (error : JsValue) : bool :=
  isError error
  && truthy (causeOf error)
  && typeofObject (causeOf error)
  && forallb (fun key => existsb (String.eqb key) GITLAB_API_ERROR_CAUSE_KEYS)
       (objectKeys (causeOf error)).

(** ** Runs *)

(** The CI variables [comment] reads from [env]. *)
Record Env := mkEnv {
  CI_MERGE_REQUEST_SOURCE_BRANCH_NAME : option string;
  CI_MERGE_REQUEST_PROJECT_URL : string;
  CI_MERGE_REQUEST_SOURCE_BRANCH_SHA : string;
  CI_MERGE_REQUEST_TITLE : string;
  GITLAB_COMMENT_TYPE : string;
  GITLAB_ADD_CHANGESET_MESSAGE : option string
}.

(** What the collaborators answer during one run.  A listing and the user
    name are fetched again by each pass of [getNoteInfo]: the answers are
    indexed by the number of earlier calls.  All calls are about the same
    project and merge request, which the model leaves out. *)
Record World := mkWorld {
  discussionsAll : nat -> Result (list DiscussionSchema);
  notesAll : nat -> Result (list MergeRequestNoteSchema);
  getUsername : nat -> Result string;
  showChanges : Result MergeRequestChangesSchema;
  getChangedPackages :
    Result (list string) -> Result (list string * option ReleasePlan);
  humanId : string;
  writeAnswer : Result unit       (* of the create or edit call *)
}.

(** The observable calls of a run. *)
Inductive Event :=
| CallShowChanges
| CallDiscussionsAll
| CallNotesAll
| CallGetUsername
| CallGetChangedPackages
| CallEditDiscussionNote (discussionId : option string) (noteId : Z) (body : string)
| CallCreateDiscussion (body : string)
| CallEditNote (noteId : Z) (body : string)
| CallCreateNote (body : string)
| ConsoleWarn (msg : string)
| ConsoleError (args : list JsValue)
| CaptureException (err : JsValue).

Definition isCreate (e : Event) : bool :=
  match e with CallCreateDiscussion _ | CallCreateNote _ => true | _ => false end.

Definition isEdit (e : Event) : bool :=
  match e with CallEditDiscussionNote _ _ _ | CallEditNote _ _ => true | _ => false end.

Definition isWrite (e : Event) : bool := isCreate e || isEdit e.

Definition isCall (kind e : Event) : bool :=
  match kind, e with
  | CallDiscussionsAll, CallDiscussionsAll
  | CallNotesAll, CallNotesAll
  | CallGetUsername, CallGetUsername => true
  | _, _ => false
  end.

(** The body a write call sends. *)
Definition writtenBody (e : Event) : option string :=
  match e with
  | CallEditDiscussionNote _ _ b | CallCreateDiscussion b
  | CallEditNote _ b | CallCreateNote b => Some b
  | _ => None
  end.

(** The state a run threads: the log of its calls, and the local variable
    [errFromFetchingChangedFiles] of [comment]. *)
Record St := mkSt {
  log : list Event;
  errFromFetchingChangedFiles : string
}.

Definition M (A : Type) : Type := St -> Result A * St.

Definition ret {A : Type} (a : A) : M A := fun st => (Resolved a, st).

Definition throw {A : Type} (e : JsValue) : M A := fun st => (Rejected e, st).

Definition bind {A B : Type} (c : M A) (f : A -> M B) : M B :=
  fun st =>
    match c st with
    | (Resolved a, st') => f a st'
    | (Rejected e, st') => (Rejected e, st')
    end.

Notation "x <- c ;; k" := (bind c (fun x => k))
  (at level 61, c at next level, right associativity).
Notation "c ;;; k" := (bind c (fun _ => k))
  (at level 61, right associativity).

(** Run [c] and hand its outcome over as a value: a promise that is not
    awaited yet. *)
Definition attempt {A : Type} (c : M A) : M (Result A) :=
  fun st => let (r, st') := c st in (Resolved r, st').

(** [await p] *)
Definition await {A : Type} (p : Result A) : M A :=
  match p with
  | Resolved a => ret a
  | Rejected e => throw e
  end.

Definition emit (e : Event) : M unit :=
  fun st => (Resolved tt, mkSt (log st ++ [e]) (errFromFetchingChangedFiles st)).

Definition setErrFromFetchingChangedFiles (s : string) : M unit :=
  fun st => (Resolved tt, mkSt (log st) s).

Definition getErrFromFetchingChangedFiles : M string :=
  fun st => (Resolved (errFromFetchingChangedFiles st), st).

Definition countCalls (kind : Event) : M nat :=
  fun st => (Resolved (List.length (filter (isCall kind) (log st))), st).

(** [Promise.all([a, b, c])].  In the source the three branches are started
    before the first [await] and run interleaved, and the join rejects with
    the rejection that comes first in time.  The model fixes one schedule:
    it runs each branch to its end in the order of the array, and the join
    rejects with the first rejection in that order.  What a run calls in
    each branch and whether the join resolves do not depend on the schedule;
    the order of the calls of different branches in the log, and which of
    two rejections the run ends with, do. *)
Definition promiseAll3 {A B C : Type} (a : M A) (b : M B) (c : M C) : M (A * B * C) :=
  ra <- attempt a ;;
  rb <- attempt b ;;
  rc <- attempt c ;;
  match ra, rb, rc with
  | Resolved x, Resolved y, Resolved z => ret (x, y, z)
  | Rejected e, _, _ => throw e
  | _, Rejected e, _ => throw e
  | _, _, Rejected e => throw e
  end.

Variable w : World.

Definition callDiscussionsAll : M (list DiscussionOrNote) :=
  k <- countCalls CallDiscussionsAll ;;
  emit CallDiscussionsAll ;;;
  await (mapResult (map ADiscussion) (discussionsAll w k)).

Definition callNotesAll : M (list DiscussionOrNote) :=
  k <- countCalls CallNotesAll ;;
  emit CallNotesAll ;;;
  await (mapResult (map ANote) (notesAll w k)).

Definition callGetUsername : M string :=
  k <- countCalls CallGetUsername ;;
  emit CallGetUsername ;;;
  await (getUsername w k).

(** One pass of [getNoteInfo]; [retry] is the recursive call. *)
Definition getNoteInfoPass (commentType : string) (random : bool)
           (retry : M (option NoteInfo)) : M (option NoteInfo) :=
  discussionOrNotes <-
    (if String.eqb commentType "discussion" then callDiscussionsAll else callNotesAll) ;;
  username <- callGetUsername ;;
  match scanNotes discussionOrNotes username random with
  | Some info => ret (Some info)
  | None => if random then ret None else retry
  end.

(** The recursive call has [random = true] and does not recurse. *)
Definition getNoteInfo (commentType : string) (random : bool) : M (option NoteInfo) :=
  getNoteInfoPass commentType random
    (getNoteInfoPass commentType true (ret None)).

Definition fetchErrorBlock (message : string) : string :=
  "<details><summary>💥 An error occurred when fetching the changed packages and changesets in this MR</summary>"
  ++ nl ++ nl ++ "```" ++ nl ++ message ++ nl ++ "```" ++ nl ++ nl ++ "</details>" ++ nl.

Definition fallbackPackages : list string * option ReleasePlan :=
  (["@fake-scope/fake-pkg"], None).

(** The handler of [getChangedPackages(...).catch] *)
Definition onChangedPackagesError (err : JsValue) : M (list string * option ReleasePlan) :=
  match err with
  | VError true message _ =>
      setErrFromFetchingChangedFiles (fetchErrorBlock message)
  | _ =>
      emit (ConsoleError [err]) ;;;
      emit (CaptureException err)
  end ;;;
  ret fallbackPackages.

(** [getChangedPackages({ changedFiles, api }).catch(...)] *)
Definition changedPackagesOrFallback (changedFilesPromise : Result MergeRequestChangesSchema)
  : M (list string * option ReleasePlan) :=
  emit CallGetChangedPackages ;;;
  match getChangedPackages w
          (mapResult (fun x => map new_path (changes x)) changedFilesPromise) with
  | Resolved r => ret r
  | Rejected err => onChangedPackagesError err
  end.

Variable env : Env.

(** The start of the [try] block, up to the join. *)
Definition gather : M (option NoteInfo * bool * (list string * option ReleasePlan)) :=
  changedFilesPromise <- attempt (emit CallShowChanges ;;; await (showChanges w)) ;;
  promiseAll3
    (getNoteInfo (GITLAB_COMMENT_TYPE env) false)
    (await (hasChangesetBeenAdded changedFilesPromise))
    (changedPackagesOrFallback changedFilesPromise).

Definition addChangesetUrl (mrBranch : string) (changedPackages : list string) : string :=
  CI_MERGE_REQUEST_PROJECT_URL env ++ "/-/new/" ++ mrBranch
  ++ "?file_name=.changeset/" ++ humanId w ++ ".md&file="
  ++ getNewChangesetTemplate changedPackages (CI_MERGE_REQUEST_TITLE env)
  ++ match GITLAB_ADD_CHANGESET_MESSAGE env with
     | Some msg =>
         if String.eqb msg "" then ""
         else "&commit_message=" ++ encodeURIComponent msg
     | None => ""
     end.

Definition prComment (mrBranch : string) (hasChangeset : bool)
           (changedPackages : list string) (releasePlan : option ReleasePlan)
           (errBlock : string) : string :=
  (if hasChangeset
   then getApproveMessage (CI_MERGE_REQUEST_SOURCE_BRANCH_SHA env)
          (addChangesetUrl mrBranch changedPackages) releasePlan
   else getAbsentMessage (CI_MERGE_REQUEST_SOURCE_BRANCH_SHA env)
          (addChangesetUrl mrBranch changedPackages) releasePlan)
  ++ errBlock.

(** A create or edit call: it is logged, and its promise is handed over. *)
Definition apiWrite (call : Event) : M (Result unit) :=
  emit call ;;; ret (writeAnswer w).

Definition invalidCommentType : JsValue :=
  VError false
    ("Invalid comment type " ++ dquote ++ GITLAB_COMMENT_TYPE env ++ dquote
     ++ ", should be " ++ dquote ++ "discussion" ++ dquote
     ++ " or " ++ dquote ++ "note" ++ dquote)
    VUndefined.

(** The [switch]: the promise of the write call is returned as it is. *)
Definition writeStep (noteInfo : option NoteInfo) (body : string) : M (Result unit) :=
  if String.eqb (GITLAB_COMMENT_TYPE env) "discussion" then
    match noteInfo with
    | Some info => apiWrite (CallEditDiscussionNote (discussionId info) (noteId info) body)
    | None => apiWrite (CallCreateDiscussion body)
    end
  else if String.eqb (GITLAB_COMMENT_TYPE env) "note" then
    match noteInfo with
    | Some info => apiWrite (CallEditNote (noteId info) body)
    | None => apiWrite (CallCreateNote body)
    end
  else throw invalidCommentType.

(** The [try] block.  It resolves with the promise it returns, and rejects
    with what is thrown inside it. *)
Definition tryBlock (mrBranch : string) : M (Result unit) :=
  joined <- gather ;;
  let '(noteInfo, hasChangeset, (changedPackages, releasePlan)) := joined in
  errBlock <- getErrFromFetchingChangedFiles ;;
  writeStep noteInfo
    (prComment mrBranch hasChangeset changedPackages releasePlan errBlock).

(** [cause.description], [cause.request], [cause.response] *)
Fixpoint lookupProp (key : string) (props : list (string * JsValue)) : JsValue :=
  match props with
  | [] => VUndefined
  | (k, v) :: props' => if String.eqb k key then v else lookupProp key props'
  end.

Definition getProp (v : JsValue) (key : string) : JsValue :=
  match v with
  | VObject props => lookupProp key props
  | _ => VUndefined
  end.

(** [try { console.error(label, await v.text()) } catch { console.error(otherwise) }] *)
Definition logText (label : string) (v : JsValue) (otherwise : string) : M unit :=
  match v with
  | VBody (Some t) => emit (ConsoleError [VString label; VString t])
  | _ => emit (ConsoleError [VString otherwise])
  end.

(** The [catch] block. *)
Definition catchBlock {A : Type} (err : JsValue) : M A :=
  (if isGitLabAPIError err then
     emit (ConsoleError [getProp (causeOf err) "description"]) ;;;
     logText "request:" (getProp (causeOf err) "request")
       "The error's request could not be used as plain text" ;;;
     logText "response:" (getProp (causeOf err) "response")
       "The error's response could not be used as plain text"
   else ret tt) ;;;
  throw err.

(** [comment]; a missing or empty branch name is falsy.  [createApi()]
    only builds the client: it performs no call. *)
Definition comment : M unit :=
  match CI_MERGE_REQUEST_SOURCE_BRANCH_NAME env with
  | Some mrBranch =>
      if String.eqb mrBranch "" then
        emit (ConsoleWarn "[changesets-gitlab:comment] It should only be used on MR")
      else if startsWith mrBranch "changeset-release" then ret tt
      else
        fun st =>
          match tryBlock mrBranch st with
          | (Resolved written, st') => await written st'
          | (Rejected err, st') => catchBlock err st'
          end
  | None =>
      emit (ConsoleWarn "[changesets-gitlab:comment] It should only be used on MR")
  end.

End Bot.

Definition initial : St := mkSt [] "".

(** A run of [comment]: its outcome and the log of its calls. *)
Definition run (markdownTable : list (list (option string)) -> string)
           (w : World) (env : Env) : Result unit * list Event :=
  let (r, st) := comment markdownTable w env initial in (r, log st).

(** ** Sample inputs *)

(** A table renderer to run the examples with: one line per row. *)
Definition sampleTable (rows : list (list (option string))) : string :=
  join nl
    (map (fun row =>
            "| " ++ join " | " (map (fun c => match c with Some s => s | None => "" end) row)
            ++ " |")
       rows).

Definition emptyPlan : ReleasePlan := mkReleasePlan [] [].

Definition samplePlan : ReleasePlan :=
  mkReleasePlan
    [mkChangeset "brave-lions-fly" "Fix the parser"]
    [mkRelease "pkg-a" minor "1.0.0" "1.1.0"; mkRelease "pkg-b" none "2.0.0" "2.0.0"].

(** ** Notions the statements use *)

(** No position of [s] starts a line terminator. *)
Fixpoint noLineTerminator (s : string) : bool :=
  match s with
  | EmptyString => true
  | String _ s' => negb (startsLineTerminator s) && noLineTerminator s'
  end.

(** [s.endsWith(suffix)] *)
Definition endsWith (s suffix : string) : bool :=
  Nat.leb (String.length suffix) (String.length s)
  && String.eqb (substring (String.length s - String.length suffix)
                   (String.length suffix) s) suffix.

(** The reading of "a qualifying changeset file" by prefix and extension
    alone, as the specification words it. *)
Definition qualifiesByPrefixAndExtension (file : Change) : bool :=
  new_file file
  && startsWith (new_path file) ".changeset/"
  && endsWith (new_path file) ".md"
  && negb (String.eqb (new_path file) ".changeset/README.md").

(** The notes an element of a listing offers to the locator: the element
    itself when it is a merge-request note, the nested notes of a
    discussion. *)
Definition notesOfItem (item : DiscussionOrNote) : list NoteSchema :=
  match item with
  | ANote n => if isMrNote item then [mr_note n] else []
  | ADiscussion d => match notes d with Some ns => ns | None => [] end
  end.


(** A state of the matcher is ahead of another when it is further in the
    same input. *)
Definition ahead (x y : MState) : Prop :=
  exists u, rest x = u ++ rest y /\ consumed y = consumed x + String.length u.

(** The state after one more call. *)
Definition addEvent (e : Event) (st : St) : St :=
  mkSt (log st ++ [e]) (errFromFetchingChangedFiles st).

(** The number of earlier calls of one kind. *)
Definition calls (kind : Event) (st : St) : nat :=
  List.length (filter (isCall kind) (log st)).

(** The create and edit calls of a log. *)
Definition writes (l : list Event) : list Event := filter isWrite l.

(** The listing [getNoteInfo] fetches for a comment type, and its answers. *)
Definition listingCall (commentType : string) : Event :=
  if String.eqb commentType "discussion" then CallDiscussionsAll else CallNotesAll.

Definition listingAnswer (w : World) (commentType : string) (k : nat)
  : Result (list DiscussionOrNote) :=
  if String.eqb commentType "discussion"
  then mapResult (map ADiscussion) (discussionsAll w k)
  else mapResult (map ANote) (notesAll w k).

(** The branch of a run that enters the [try] block: a merge request whose
    source branch is not a release branch. *)
Definition activeBranch (env : Env) : option string :=
  match CI_MERGE_REQUEST_SOURCE_BRANCH_NAME env with
  | Some mrBranch =>
      if String.eqb mrBranch "" || startsWith mrBranch "changeset-release"
      then None else Some mrBranch
  | None => None
  end.

(** A computation that performs no create or edit call. *)
Definition quiet {A : Type} (c : M A) : Prop :=
  forall st, exists evs,
    log (snd (c st)) = (log st ++ evs)%list /\ Forall (fun e => isWrite e = false) evs.

Definition botNote : NoteSchema :=
  mkNote 41 "project_123_bot7x_ab12" "###  Changeset detected __Generated By Changesets GitLab Bot__".

(** A world: one earlier comment of the bot under a randomized name, one new
    changeset file, a discovery that fails on a validation error. *)
Definition sampleWorld : World :=
  mkWorld
    (fun _ => Resolved [mkDiscussion "d1" (Some [botNote])])
    (fun _ => Resolved [mkMrNote botNote "MergeRequest"])
    (fun _ => Resolved "project_123_bot7x")
    (Resolved (mkChanges [mkChange ".changeset/brave-lions-fly.md" true;
                          mkChange "src/index.ts" false]))
    (fun _ => Rejected (VError true "package.json has no name" VUndefined))
    "calm-owls-sing"
    (Resolved tt).

Definition sampleEnv (commentType : string) : Env :=
  mkEnv (Some "feat/parser") "https://gitlab.example/g/p" "4f2a9c1"
    "Fix the parser" commentType None.

(** Outside a merge request pipeline. *)
Definition pushEnv (commentType : string) : Env :=
  mkEnv None "https://gitlab.example/g/p" "4f2a9c1" "Fix the parser" commentType None.

(** The write call of the [switch] for a valid comment type. *)
Definition writeCallFor (commentType : string) (noteInfo : option NoteInfo)
           (body : string) : Event :=
  if String.eqb commentType "discussion" then
    match noteInfo with
    | Some info => CallEditDiscussionNote (discussionId info) (noteId info) body
    | None => CallCreateDiscussion body
    end
  else
    match noteInfo with
    | Some info => CallEditNote (noteId info) body
    | None => CallCreateNote body
    end.

(** What [logText] logs. *)
Definition textEvent (label : string) (v : JsValue) (otherwise : string) : Event :=
  match v with
  | VBody (Some t) => ConsoleError [VString label; VString t]
  | _ => ConsoleError [VString otherwise]
  end.

(** What the [catch] block logs. *)
Definition diagnostics (err : JsValue) : list Event :=
  if isGitLabAPIError err then
    [ConsoleError [getProp (causeOf err) "description"];
     textEvent "request:" (getProp (causeOf err) "request")
       "The error's request could not be used as plain text";
     textEvent "response:" (getProp (causeOf err) "response")
       "The error's response could not be used as plain text"]
  else [].

(** The block a failure of discovery leaves in [errFromFetchingChangedFiles]. *)
Definition fetchBlockOf (err : JsValue) : string :=
  match err with
  | VError true message _ => fetchErrorBlock message
  | _ => ""
  end.

(** The state after one pass of [getNoteInfo]. *)
Definition afterPass (commentType : string) (st : St) : St :=
  addEvent CallGetUsername (addEvent (listingCall commentType) st).

(** [err instanceof ValidationError], and [err.message]. *)
Definition isValidationError (err : JsValue) : bool :=
  match err with
  | VError true _ _ => true
  | _ => false
  end.

Definition messageOf (err : JsValue) : string :=
  match err with
  | VError _ message _ => message
  | _ => ""
  end.

(** A platform error as the requester of the API client throws it. *)
Definition forbidden : JsValue :=
  VError false "Forbidden"
    (VObject [("description", VString "403 Forbidden");
              ("request", VBody (Some "PUT /notes/41"));
              ("response", VBody None)]).

(** A world whose listing of notes fails. *)
Definition failingWorld : World :=
  mkWorld (fun _ => Resolved []) (fun _ => Rejected forbidden)
    (fun _ => Resolved "project_123_bot7x")
    (Resolved (mkChanges []))
    (fun _ => Rejected (VError false "ENOENT" VUndefined))
    "calm-owls-sing" (Resolved tt).

(** ** Notions for the logs of a run *)

Definition isShowChanges (e : Event) : bool :=
  match e with CallShowChanges => true | _ => false end.

Definition isGetChangedPackages (e : Event) : bool :=
  match e with CallGetChangedPackages => true | _ => false end.

Definition isListing (e : Event) : bool :=
  match e with CallDiscussionsAll | CallNotesAll => true | _ => false end.

(** The number of events of a log that satisfy [p]. *)
Definition count (p : Event -> bool) (l : list Event) : nat :=
  List.length (filter p l).

(** The calls one call of [getNoteInfo] can make: a listing, the user name,
    and once more when [random] is off. *)
Definition locatorLogs (commentType : string) (random : bool) : list (list Event) :=
  let listing := listingCall commentType in
  if random then
    [[listing]; [listing; CallGetUsername]]
  else
    [[listing]; [listing; CallGetUsername];
     [listing; CallGetUsername; listing];
     [listing; CallGetUsername; listing; CallGetUsername]].

(** The warning of a run outside a merge request. *)
Definition onlyOnMr : Event :=
  ConsoleWarn "[changesets-gitlab:comment] It should only be used on MR".

(** ** Notions for the shapes of strings *)

(** Every character of [s] satisfies [p]. *)
Definition allChars (p : ascii -> bool) (s : string) : bool :=
  forallb p (list_ascii_of_string s).

(** [s] with its ASCII letters in upper case. *)
Fixpoint upper (s : string) : string :=
  match s with
  | EmptyString => EmptyString
  | String a s' => String (toUpper a) (upper s')
  end.

Definition isWord (a : ascii) : bool := isAlnum a || Ascii.eqb a "_".

(** A login of the form scope, [_], digits, [_bot], word characters, [_],
    alphanumeric suffix, letters in either case. *)
Definition serviceAccountLogin (login : string) : Prop :=
  exists scope digits bot tail suffix,
    login = scope ++ "_" ++ digits ++ bot ++ tail ++ "_" ++ suffix /\
    (upper scope = "PROJECT" \/ upper scope = "GROUP") /\
    digits <> "" /\ allChars isDigit digits = true /\
    upper bot = "_BOT" /\
    allChars isWord tail = true /\
    suffix <> "" /\ allChars isAlnum suffix = true.

(** A continuation that succeeds on the input [v], wherever it starts. *)
Definition accepts (k : Cont) (v : string) : Prop :=
  forall n cap, k (mkMState n v cap) <> None.

(** What is left of a URI component as it is, or starts an escape. *)
Definition uriSafe (a : ascii) : bool := uriUnreserved a || Ascii.eqb a "%".

Definition isCaptureException (e : Event) : bool :=
  match e with CaptureException _ => true | _ => false end.

(** What the handler of a failed discovery logs in a world. *)
Definition discoveryLog (w : World) : list Event :=
  match getChangedPackages w
          (mapResult (fun x => map new_path (changes x)) (showChanges w)) with
  | Resolved _ => []
  | Rejected err =>
      if isValidationError err then []
      else [ConsoleError [err]; CaptureException err]
  end.

(** * Properties *)

(** ** Strings *)

Lemma prefix_app (p s : string) : String.prefix p (p ++ s) = true.
Proof.
  induction p as [|a p IH]; simpl.
  - destruct s; reflexivity.
  - destruct (ascii_dec a a) as [_|ne]; [exact IH | now elim ne].
Qed.

Lemma prefix_app_l (p s t : string) :
  String.prefix p s = true -> String.prefix p (s ++ t) = true.
Proof.
  revert s; induction p as [|a p IH]; intros s H; simpl in *.
  - destruct (s ++ t); reflexivity.
  - destruct s as [|b s]; [discriminate|]. revert H; simpl.
    destruct (ascii_dec a b); intros H; [now apply IH | discriminate H].
Qed.

Lemma prefix_split (p s : string) :
  String.prefix p s = true -> exists t, s = p ++ t.
Proof.
  revert s; induction p as [|a p IH]; intros s H.
  - now exists s.
  - destruct s as [|b s]; simpl in H; [discriminate|].
    destruct (ascii_dec a b) as [->|]; [|discriminate].
    destruct (IH _ H) as [t ->]. now exists t.
Qed.

Lemma includes_unfold (s needle : string) :
  includes s needle =
  if String.prefix needle s then true
  else match s with
       | EmptyString => false
       | String _ s' => includes s' needle
       end.
Proof. destruct s; reflexivity. Qed.

Lemma includes_prefix (s needle : string) :
  String.prefix needle s = true -> includes s needle = true.
Proof. intros H; rewrite includes_unfold, H; reflexivity. Qed.

Lemma includes_here (needle s : string) : includes (needle ++ s) needle = true.
Proof. apply includes_prefix, prefix_app. Qed.

Lemma includes_app_r (a s needle : string) :
  includes s needle = true -> includes (a ++ s) needle = true.
Proof.
  intros H; induction a as [|c a IH]; [exact H|].
  change (String c a ++ s) with (String c (a ++ s)).
  rewrite includes_unfold, IH.
  now destruct (String.prefix needle (String c (a ++ s))).
Qed.

Lemma includes_app_l (s b needle : string) :
  includes s needle = true -> includes (s ++ b) needle = true.
Proof.
  induction s as [|c s IH]; intros H; rewrite includes_unfold in H.
  - destruct (String.prefix needle "") eqn:E; [|discriminate].
    apply includes_prefix. now apply (prefix_app_l needle "" b).
  - destruct (String.prefix needle (String c s)) eqn:E.
    + apply includes_prefix. now apply (prefix_app_l needle (String c s) b).
    + change (String c s ++ b) with (String c (s ++ b)).
      rewrite includes_unfold, (IH H).
      now destruct (String.prefix needle (String c (s ++ b))).
Qed.

(** A one-character needle is searched for in each part of a
    concatenation. *)
Lemma includes_char_app (a b : string) (c : ascii) :
  includes (a ++ b) (String c "") = includes a (String c "") || includes b (String c "").
Proof.
  induction a as [|x a IH].
  - simpl. destruct b; reflexivity.
  - change (String x a ++ b) with (String x (a ++ b)).
    rewrite (includes_unfold (String x (a ++ b))), (includes_unfold (String x a)), IH.
    simpl. destruct (ascii_dec c x); [|reflexivity].
    destruct (a ++ b); destruct a; reflexivity.
Qed.

Lemma includes_first_char (s t : string) (c : ascii) :
  includes s (String c "") = false -> includes s (String c t) = false.
Proof.
  induction s as [|x s IH]; [easy|].
  rewrite !(includes_unfold (String x s)). simpl.
  destruct (ascii_dec c x).
  - now destruct s.
  - exact IH.
Qed.

Ltac find_needle :=
  repeat first [ apply includes_here | apply includes_app_r ].

Lemma append_assoc (a b c : string) : (a ++ b) ++ c = a ++ (b ++ c).
Proof. induction a as [|x a IH]; simpl; [reflexivity | now rewrite IH]. Qed.

Lemma append_nil_r (a : string) : a ++ "" = a.
Proof. induction a as [|x a IH]; simpl; [reflexivity | now rewrite IH]. Qed.

Lemma length_append (a b : string) :
  String.length (a ++ b) = String.length a + String.length b.
Proof. induction a as [|x a IH]; simpl; [reflexivity | now rewrite IH]. Qed.

Lemma prefix_app_cancel (p a b : string) :
  String.prefix (p ++ a) (p ++ b) = String.prefix a b.
Proof.
  induction p as [|x p IH]; simpl; [reflexivity|].
  destruct (ascii_dec x x) as [_|ne]; [exact IH | now elim ne].
Qed.

(** ** Message composer *)

(** A count is never printed as ["1"] followed by [" package<"]: the
    plural form cannot be mistaken for the singular one. *)
Lemma plural_is_not_singular (u : Decimal.uint) (tail : string) :
  String.prefix "1 package</summary>"
    (NilEmpty.string_of_uint u ++ " packages" ++ "</summary>" ++ tail) = false.
Proof.
  destruct u as [|u|u|u|u|u|u|u|u|u|u]; try reflexivity.
  destruct u; reflexivity.
Qed.

Lemma publishable_spec (releasePlan : ReleasePlan) (x : ComprehensiveRelease) :
  In x (publishable releasePlan) <-> In x (releases releasePlan) /\ type x <> none.
Proof.
  unfold publishable. rewrite filter_In.
  split; intros [H1 H2]; split; trivial.
  - intros E; rewrite E in H2; discriminate.
  - destruct (type x); try reflexivity. now elim H2.
Qed.

Lemma typeLabel_defined (t : VersionType) :
  t <> none -> exists label, typeLabel t = Some label.
Proof. destruct t; intros H; try (eexists; reflexivity). now elim H. Qed.

(** The rows handed to [markdownTable] after the header are the releases
    whose type is not [none], each with its name and capitalised type. *)
Lemma tableRows_spec (releasePlan : ReleasePlan) (row : list (option string)) :
  In row (tl (tableRows releasePlan)) <->
  exists x label,
    In x (releases releasePlan) /\ type x <> none /\
    typeLabel (type x) = Some label /\ row = [Some (name x); Some label].
Proof.
  unfold tableRows; simpl. rewrite in_map_iff. split.
  - intros (x & <- & Hx). apply publishable_spec in Hx as [Hin Hne].
    destruct (typeLabel_defined _ Hne) as [label Hl].
    exists x, label. now rewrite Hl.
  - intros (x & label & Hin & Hne & Hl & ->).
    exists x. rewrite Hl. split; [reflexivity|]. now apply publishable_spec.
Qed.


Lemma absent_has_marker markdownTable commitSha url releasePlan (err : string) :
  includes (getAbsentMessage markdownTable commitSha url releasePlan ++ err)
    generatedByBotNote = true.
Proof. apply includes_app_l. unfold getAbsentMessage. find_needle. Qed.

Lemma approve_has_marker markdownTable commitSha url releasePlan (err : string) :
  includes (getApproveMessage markdownTable commitSha url releasePlan ++ err)
    generatedByBotNote = true.
Proof. apply includes_app_l. unfold getApproveMessage. find_needle. Qed.

Lemma prComment_has_marker markdownTable w env mrBranch hasChangeset pkgs releasePlan err :
  includes (prComment markdownTable w env mrBranch hasChangeset pkgs releasePlan err)
    generatedByBotNote = true.
Proof.
  unfold prComment. destruct hasChangeset;
    [apply approve_has_marker | apply absent_has_marker].
Qed.

(** The block of a plan, with the place of the table left open. *)
Lemma releasePlanMessage_shape (releasePlan : ReleasePlan) :
  exists before after,
    forall markdownTable,
      getReleasePlanMessage markdownTable (Some releasePlan) =
      before
      ++ (if Nat.eqb (List.length (publishable releasePlan)) 0 then noTablePlaceholder
          else markdownTable (tableRows releasePlan))
      ++ after.
Proof.
  exists ("<details><summary>This MR includes "
          ++ (if Nat.ltb 0 (List.length (changesets releasePlan))
              then "changesets to release "
                   ++ (if Nat.eqb (List.length (publishable releasePlan)) 1
                       then "1 package"
                       else decimal (List.length (publishable releasePlan)) ++ " packages")
              else "no changesets")
          ++ "</summary>" ++ nl ++ nl ++ "  "),
         (nl ++ nl ++ "</details>").
  intros markdownTable. unfold getReleasePlanMessage.
  rewrite !append_assoc.
  destruct (List.length (publishable releasePlan)); reflexivity.
Qed.

Lemma releasePlanMessage_summary markdownTable (releasePlan : ReleasePlan) :
  exists rest,
    getReleasePlanMessage markdownTable (Some releasePlan) =
    "<details><summary>This MR includes "
    ++ (if Nat.ltb 0 (List.length (changesets releasePlan))
        then "changesets to release "
             ++ (if Nat.eqb (List.length (publishable releasePlan)) 1 then "1 package"
                 else decimal (List.length (publishable releasePlan)) ++ " packages")
        else "no changesets")
    ++ "</summary>" ++ rest.
Proof. eexists. unfold getReleasePlanMessage. reflexivity. Qed.

(** C5 (amended).  For every release plan: the rows of the table are exactly
    the releases whose type is not [none], with the name and the type
    capitalised; with no such release the block holds the placeholder text in
    the place of the table; when the plan has at least one changeset the
    summary says "1 package" exactly when there is one such release and
    "N packages" otherwise; when the plan has no changeset the summary says
    "no changesets", whatever the number of releases. *)
Theorem release_plan_block markdownTable (releasePlan : ReleasePlan) :
  let n := List.length (publishable releasePlan) in
  let block := getReleasePlanMessage markdownTable (Some releasePlan) in
  (typeLabel major = Some "Major" /\ typeLabel minor = Some "Minor" /\
   typeLabel patch = Some "Patch") /\
  (forall row,
      In row (tl (tableRows releasePlan)) <->
      exists x label,
        In x (releases releasePlan) /\ type x <> none /\
        typeLabel (type x) = Some label /\ row = [Some (name x); Some label]) /\
  (exists before after,
      forall table,
        getReleasePlanMessage table (Some releasePlan) =
        before
        ++ (if Nat.eqb n 0 then noTablePlaceholder else table (tableRows releasePlan))
        ++ after) /\
  (changesets releasePlan <> [] ->
   (startsWith block
      "<details><summary>This MR includes changesets to release 1 package</summary>" = true
    <-> n = 1) /\
   (n <> 1 ->
    startsWith block
      ("<details><summary>This MR includes changesets to release "
       ++ decimal n ++ " packages</summary>") = true)) /\
  (changesets releasePlan = [] ->
   startsWith block "<details><summary>This MR includes no changesets</summary>" = true).
Proof.
  intros n block. split; [repeat split|]. split; [apply tableRows_spec|].
  split; [apply releasePlanMessage_shape|].
  destruct (releasePlanMessage_summary markdownTable releasePlan) as [rest E].
  fold n in E. fold block in E. unfold startsWith.
  split.
  - intros Hcs. rewrite E.
    destruct (changesets releasePlan) as [|c cs]; [now elim Hcs|]. simpl List.length.
    change (Nat.ltb 0 (S (List.length cs))) with true. cbv iota.
    split; [split|].
    + destruct (Nat.eqb n 1) eqn:En; [intros _; now apply Nat.eqb_eq|].
      intros H. exfalso.
      change "<details><summary>This MR includes changesets to release 1 package</summary>"
        with ("<details><summary>This MR includes " ++ "changesets to release "
              ++ "1 package</summary>") in H.
      rewrite !append_assoc, !prefix_app_cancel in H.
      unfold decimal in H. rewrite plural_is_not_singular in H. discriminate.
    + intros ->. simpl. now destruct rest.
    + intros Hn. destruct (Nat.eqb n 1) eqn:En; [apply Nat.eqb_eq in En; now elim Hn|].
      change "<details><summary>This MR includes changesets to release "
        with ("<details><summary>This MR includes " ++ "changesets to release ").
      change " packages</summary>" with (" packages" ++ "</summary>" ++ "").
      rewrite !append_assoc, !prefix_app_cancel. now destruct rest.
  - intros Hcs. rewrite E, Hcs. simpl. now destruct rest.
Qed.

Lemma release_plan_block_witness :
  startsWith (getReleasePlanMessage sampleTable (Some samplePlan))
    "<details><summary>This MR includes changesets to release 1 package</summary>" = true
  /\ startsWith (getReleasePlanMessage sampleTable (Some emptyPlan))
       "<details><summary>This MR includes no changesets</summary>" = true.
Proof.
  split.
  - destruct (release_plan_block sampleTable samplePlan) as (_ & _ & _ & H & _).
    apply H; [discriminate | reflexivity].
  - destruct (release_plan_block sampleTable emptyPlan) as (_ & _ & _ & _ & H).
    apply H. reflexivity.
Defined.

(** C5 as stated fails on the empty plan: there is no release whose type is
    not [none], and the summary does not say "0 packages". *)
Lemma summary_of_empty_plan_counts_no_package :
  List.length (publishable emptyPlan) = 0
  /\ includes (getReleasePlanMessage sampleTable (Some emptyPlan)) "0 packages" = false
  /\ startsWith (getReleasePlanMessage sampleTable (Some emptyPlan))
       "<details><summary>This MR includes no changesets</summary>" = true.
Proof. repeat split; vm_compute; reflexivity. Qed.

(** ** The matcher *)

Lemma substring_app_length (u v : string) : substring 0 (String.length u) (u ++ v) = u.
Proof.
  induction u as [|a u IH]; simpl.
  - destruct v; reflexivity.
  - now rewrite IH.
Qed.

(** Case-sensitive literals: [litRest] strips the literal. *)
Lemma litRest_exact (lit s s' : string) :
  litRest false lit s = Some s' <-> s = lit ++ s'.
Proof.
  revert s; induction lit as [|a lit IH]; intros s; simpl.
  - split; [now intros [= ->] | now intros ->].
  - destruct s as [|b s].
    + split; discriminate.
    + unfold charEq. rewrite orb_false_r.
      destruct (Ascii.eqb_spec a b) as [->|ne].
      * rewrite IH. split; [now intros -> | now intros [= ->]].
      * split; [discriminate | intros [= E _]; now elim ne].
Qed.

(** With or without the flag [i], a literal consumes as many characters as
    it has. *)
Lemma litRest_length (ic : bool) (lit s s' : string) :
  litRest ic lit s = Some s' ->
  exists u, s = u ++ s' /\ String.length u = String.length lit.
Proof.
  revert s; induction lit as [|a lit IH]; intros s; simpl.
  - intros [= ->]. now exists "".
  - destruct s as [|b s]; [discriminate|].
    destruct (charEq ic a b); [|discriminate].
    intros H. destruct (IH _ H) as (u & -> & Hl).
    exists (String b u). simpl. now rewrite Hl.
Qed.

(** What a successful greedy iteration has done: it consumed some [u] whose
    characters all belong to the class, and the continuation succeeded on
    what follows. *)
Lemma star_sound (ic : bool) (c : cls) (k : Cont) (cap : option string) :
  forall s n z,
    star ic c n s cap k = Some z ->
    exists u v,
      s = u ++ v /\ allMatch ic c u v = true /\
      k (mkMState (n + String.length u) v cap) = Some z.
Proof.
  induction s as [|a s IH]; intros n z H; simpl in H.
  - exists "", "". simpl. now rewrite Nat.add_0_r.
  - destruct (clsMatch ic c (String a s)) eqn:Ea.
    + destruct (star ic c (S n) s cap k) as [r|] eqn:Es.
      * injection H as ->. destruct (IH _ _ Es) as (u & v & -> & Hall & Hk).
        exists (String a u), v. simpl. rewrite Ea, Hall.
        rewrite Nat.add_succ_r. now rewrite Nat.add_succ_l in Hk.
      * exists "", (String a s). simpl. now rewrite Nat.add_0_r.
    + exists "", (String a s). simpl. now rewrite Nat.add_0_r.
Qed.

(** Conversely the iteration succeeds as soon as some split of the input
    lets the continuation succeed. *)
Lemma star_complete (ic : bool) (c : cls) (k : Cont) (cap : option string) :
  forall u v n,
    allMatch ic c u v = true ->
    k (mkMState (n + String.length u) v cap) <> None ->
    star ic c n (u ++ v) cap k <> None.
Proof.
  induction u as [|a u IH]; intros v n Hall Hk.
  - simpl in *. rewrite Nat.add_0_r in Hk.
    destruct v as [|b v]; simpl; [exact Hk|].
    destruct (clsMatch ic c (String b v)); [|exact Hk].
    destruct (star ic c (S n) v cap k); [discriminate | exact Hk].
  - simpl in Hall. apply andb_prop in Hall as [Ha Hall].
    simpl. rewrite Ha.
    assert (Hs : star ic c (S n) (u ++ v) cap k <> None).
    { apply IH; [exact Hall|]. simpl in Hk.
      now rewrite Nat.add_succ_r in Hk. }
    destruct (star ic c (S n) (u ++ v) cap k); [discriminate | now elim Hs].
Qed.

Lemma ahead_refl (x : MState) : ahead x x.
Proof. exists "". simpl. now rewrite Nat.add_0_r. Qed.

Lemma ahead_trans (x y z : MState) : ahead x y -> ahead y z -> ahead x z.
Proof.
  intros (u & E1 & L1) (v & E2 & L2). exists (u ++ v).
  rewrite E1, E2, L2, L1, append_assoc, length_append. split; [reflexivity | lia].
Qed.

(** A successful match hands the continuation a state further in the
    input. *)
Lemma m_ahead (ic : bool) (r : regex) :
  forall x k z, m ic r x k = Some z -> exists y, ahead x y /\ k y = Some z.
Proof.
  induction r as [| |lit|c|c|r1 IH1 r2 IH2|r1 IH1 r2 IH2|r1 IH1];
    intros x k z H; simpl in H.
  - destruct (Nat.eqb (consumed x) 0); [|discriminate].
    exists x. split; [apply ahead_refl | exact H].
  - destruct (rest x); [|discriminate].
    exists x. split; [apply ahead_refl | exact H].
  - destruct (litRest ic lit (rest x)) as [s'|] eqn:El; [|discriminate].
    destruct (litRest_length _ _ _ _ El) as (u & Eu & Lu).
    eexists. split; [|exact H]. exists u. simpl. now rewrite Lu.
  - destruct (star_sound _ _ _ _ _ _ _ H) as (u & v & Eu & _ & Hk).
    eexists. split; [|exact Hk]. now exists u.
  - destruct (rest x) as [|a s'] eqn:Er; [discriminate|].
    destruct (clsMatch ic c (String a s')); [|discriminate].
    destruct (star_sound _ _ _ _ _ _ _ H) as (u & v & Eu & _ & Hk).
    eexists. split; [|exact Hk]. exists (String a u). simpl.
    rewrite Er, Eu. split; [reflexivity | lia].
  - destruct (IH1 _ _ _ H) as (y1 & A1 & H1).
    destruct (IH2 _ _ _ H1) as (y2 & A2 & H2).
    exists y2. split; [now apply ahead_trans with y1 | exact H2].
  - destruct (m ic r1 x k) as [z1|] eqn:E1.
    + injection H as ->. now apply IH1.
    + now apply IH2.
  - destruct (IH1 _ _ _ H) as (y & A & Hk).
    eexists. split; [|exact Hk]. exact A.
Qed.

(** A pattern that starts with [^] matches at the start or nowhere. *)
Lemma search_anchored (ic : bool) (r : regex) (s : string) :
  search ic (RSeq RBol r) 0 s = m ic r (mkMState 0 s None) Some.
Proof.
  assert (Hlater : forall t n, search ic (RSeq RBol r) (S n) t = None).
  { induction t as [|a t IH]; intros n; simpl; [reflexivity | apply IH]. }
  destruct s as [|a s]; simpl.
  - now destruct (m ic r (mkMState 0 "" None) Some).
  - rewrite Hlater. now destruct (m ic r (mkMState 0 (String a s) None) Some).
Qed.

(** ** Changeset detection *)

Lemma dot_before_extension (a : ascii) (u : string) :
  startsLineTerminator (String a (u ++ ".md")) = startsLineTerminator (String a u).
Proof.
  destruct u as [|b [|c u]]; simpl; try reflexivity.
  now rewrite andb_false_r.
Qed.

Lemma allMatch_dot (u : string) :
  allMatch false CDot u ".md" = noLineTerminator u.
Proof.
  induction u as [|a u IH]; [reflexivity|].
  cbn [allMatch noLineTerminator clsMatch]. now rewrite IH, dot_before_extension.
Qed.

(** The paths the pattern accepts: [.changeset/], a non-empty stem without
    line terminator, [.md]. *)
Lemma changeset_pattern_spec (path : string) :
  test false CHANGESET_FILE_PATTERN path = true <->
  exists stem,
    path = ".changeset/" ++ stem ++ ".md" /\ stem <> "" /\ noLineTerminator stem = true.
Proof.
  unfold test, CHANGESET_FILE_PATTERN. rewrite search_anchored.
  cbn [m rest consumed cap1].
  split.
  - destruct (litRest false ".changeset/" path) as [s1|] eqn:E1; [|discriminate].
    apply litRest_exact in E1 as ->.
    destruct s1 as [|a s1]; [discriminate|].
    destruct (clsMatch false CDot (String a s1)) eqn:Ea; [|discriminate].
    destruct (star _ _ _ _ _ _) as [z|] eqn:Es; [|discriminate]. intros _.
    apply star_sound in Es as (u & v & -> & Hall & Hk).
    cbn [rest] in Hk.
    destruct (litRest false ".md" v) as [s3|] eqn:E3; [|discriminate].
    apply litRest_exact in E3 as ->.
    destruct s3; [|discriminate].
    exists (String a u). split; [reflexivity|]. split; [discriminate|].
    rewrite allMatch_dot in Hall. cbn [noLineTerminator]. rewrite Hall, andb_true_r.
    cbn [clsMatch] in Ea. now rewrite dot_before_extension in Ea.
  - intros (stem & -> & Hne & Hnl).
    destruct stem as [|a u]; [now elim Hne|].
    cbn [noLineTerminator] in Hnl. apply andb_prop in Hnl as [Ha Hu].
    assert (E1 : litRest false ".changeset/" (".changeset/" ++ String a u ++ ".md")
                 = Some (String a (u ++ ".md"))) by now apply litRest_exact.
    rewrite E1.
    assert (Ea : clsMatch false CDot (String a (u ++ ".md")) = true).
    { cbn [clsMatch]. now rewrite dot_before_extension. }
    rewrite Ea.
    match goal with
    | |- match ?s with Some _ => true | None => false end = true =>
        assert (Hs : s <> None); [|destruct s; [reflexivity | now elim Hs]]
    end.
    apply star_complete; [now rewrite allMatch_dot|].
    cbn [rest]. assert (E3 : litRest false ".md" ".md" = Some "") by reflexivity.
    rewrite E3. discriminate.
Qed.

(** C8 (amended).  [hasChangesetBeenAdded] resolves to [true] exactly when
    some changed file is new, has a path made of [.changeset/], a non-empty
    stem that holds no line terminator, and [.md], and is not
    [.changeset/README.md].  A new [.changeset/foo.md] counts; a new
    [.changeset/README.md] and a file that is not new do not. *)
Theorem hasChangesetBeenAdded_spec (changedFiles : MergeRequestChangesSchema) :
  (exists b, hasChangesetBeenAdded (Resolved changedFiles) = Resolved b) /\
  (hasChangesetBeenAdded (Resolved changedFiles) = Resolved true <->
   exists file,
     In file (changes changedFiles) /\
     new_file file = true /\
     (exists stem,
         new_path file = ".changeset/" ++ stem ++ ".md" /\
         stem <> "" /\ noLineTerminator stem = true) /\
     new_path file <> ".changeset/README.md") /\
  hasChangesetBeenAdded (Resolved (mkChanges [mkChange ".changeset/foo.md" true]))
  = Resolved true /\
  hasChangesetBeenAdded (Resolved (mkChanges [mkChange ".changeset/README.md" true]))
  = Resolved false /\
  (forall path,
      hasChangesetBeenAdded (Resolved (mkChanges [mkChange path false])) = Resolved false).
Proof.
  split; [eexists; reflexivity|].
  split; [|split; [vm_compute; reflexivity|split; [vm_compute; reflexivity|reflexivity]]].
  simpl. split.
  - intros [= H]. apply existsb_exists in H as (file & Hin & Hq).
    unfold isNewChangesetFile in Hq.
    apply andb_prop in Hq as [Hq Hr]. apply andb_prop in Hq as [Hn Ht].
    exists file. repeat split; trivial.
    + now apply changeset_pattern_spec.
    + intros E. rewrite E in Hr. discriminate.
  - intros (file & Hin & Hn & Hstem & Hr). f_equal.
    apply existsb_exists. exists file. split; [exact Hin|].
    unfold isNewChangesetFile. rewrite Hn.
    apply changeset_pattern_spec in Hstem. rewrite Hstem. simpl.
    destruct (String.eqb_spec (new_path file) ".changeset/README.md"); [contradiction|reflexivity].
Qed.

Lemma hasChangesetBeenAdded_spec_witness :
  hasChangesetBeenAdded (Resolved (mkChanges [mkChange ".changeset/foo.md" true]))
  = Resolved true.
Proof.
  destruct (hasChangesetBeenAdded_spec (mkChanges [mkChange ".changeset/foo.md" true]))
    as (_ & H & _).
  apply H. exists (mkChange ".changeset/foo.md" true).
  split; [now left|]. split; [reflexivity|].
  split; [|discriminate].
  exists "foo". split; [reflexivity|]. split; [discriminate | reflexivity].
Defined.

(** The examples of the specification. *)
Lemma changeset_detection_examples :
  hasChangesetBeenAdded (Resolved (mkChanges [mkChange ".changeset/foo.md" true]))
  = Resolved true
  /\ hasChangesetBeenAdded (Resolved (mkChanges [mkChange ".changeset/README.md" true]))
     = Resolved false
  /\ hasChangesetBeenAdded (Resolved (mkChanges [mkChange ".changeset/foo.md" false]))
     = Resolved false.
Proof. repeat split; vm_compute; reflexivity. Qed.

(** C8 as stated fails: a new file under [.changeset/] that ends with [.md]
    and is not the README is not detected when its stem is empty, or holds a
    line feed. *)
Lemma prefix_and_extension_do_not_suffice :
  let hidden := mkChange ".changeset/.md" true in
  let broken := mkChange (".changeset/a" ++ nl ++ "b.md") true in
  qualifiesByPrefixAndExtension hidden = true
  /\ hasChangesetBeenAdded (Resolved (mkChanges [hidden])) = Resolved false
  /\ qualifiesByPrefixAndExtension broken = true
  /\ hasChangesetBeenAdded (Resolved (mkChanges [broken])) = Resolved false.
Proof. repeat split; vm_compute; reflexivity. Qed.

(** ** The randomized-name pattern *)

Lemma charEq_underscore (c : ascii) : charEq true "_" c = true -> c = "_"%char.
Proof.
  destruct c as [[] [] [] [] [] [] [] []]; vm_compute; intros H;
    solve [reflexivity | discriminate H].
Qed.

(** What the pattern captures is the login without its last [_] and the
    non-empty run after it. *)
Lemma random_pattern_strips_suffix (login : string) (captured : option string) :
  exec true RANDOM_BOT_NAME_PATTERN login = Some captured ->
  exists base suffix,
    captured = Some base /\ login = base ++ "_" ++ suffix /\ suffix <> "".
Proof.
  unfold exec, RANDOM_BOT_NAME_PATTERN. rewrite search_anchored.
  match goal with
  | |- context [RCapture ?g] => set (G := g)
  end.
  cbn [m].
  destruct (m true G _ _) as [z|] eqn:Ez; [|discriminate].
  intros [= <-].
  apply m_ahead in Ez as (y & (u & Eu & Lu) & Hk).
  cbn [rest consumed cap1] in *.
  rewrite Nat.add_0_l in Lu. rewrite Lu, Nat.sub_0_r, Eu, substring_app_length in Hk.
  destruct (rest y) as [|c s1]; [discriminate|].
  cbn [litRest] in Hk.
  destruct (charEq true "_" c) eqn:Ec; [|discriminate].
  apply charEq_underscore in Ec as ->.
  destruct s1 as [|a s2]; [discriminate|].
  destruct (clsMatch true _ (String a s2)); [|discriminate].
  apply star_sound in Hk as (u2 & v & -> & _ & Hk).
  simpl in Hk. destruct v; [|discriminate].
  injection Hk as <-. simpl.
  exists u, (String a (u2 ++ "")). repeat split; [exact Eu | discriminate].
Qed.

Lemma randomNameIs_strips_suffix (login username : string) :
  randomNameIs login username = true ->
  exists suffix, login = username ++ "_" ++ suffix /\ suffix <> "".
Proof.
  unfold randomNameIs.
  destruct (exec true RANDOM_BOT_NAME_PATTERN login) as [captured|] eqn:E; [|discriminate].
  apply random_pattern_strips_suffix in E as (base & suffix & -> & -> & Hs).
  intros H. apply String.eqb_eq in H as <-. now exists suffix.
Qed.

(** C4.  With random matching enabled the login [project_123_bot7x_ab12] is
    accepted for the user name [project_123_bot7x]: the pattern captures the
    login without its last suffix, and that capture alone is compared with
    the user name.  The login [someoneelse] does not match the pattern, so
    it is accepted for no user name but [someoneelse] itself. *)
Theorem random_name_matcher :
  exec true RANDOM_BOT_NAME_PATTERN "project_123_bot7x_ab12"
  = Some (Some "project_123_bot7x") /\
  (forall id body,
      includes body generatedByBotNote = true ->
      isChangesetBotNote (mkNote id "project_123_bot7x_ab12" body)
        "project_123_bot7x" true = true) /\
  (forall login username,
      randomNameIs login username = true ->
      exists suffix, login = username ++ "_" ++ suffix /\ suffix <> "") /\
  exec true RANDOM_BOT_NAME_PATTERN "someoneelse" = None /\
  (forall username, randomNameIs "someoneelse" username = false) /\
  (forall id body username random,
      isChangesetBotNote (mkNote id "someoneelse" body) username random = true ->
      username = "someoneelse").
Proof.
  split; [vm_compute; reflexivity|].
  split.
  { intros id text Hb. unfold isChangesetBotNote.
    apply andb_true_intro. split; [vm_compute; reflexivity | exact Hb]. }
  split; [exact randomNameIs_strips_suffix|].
  split; [vm_compute; reflexivity|].
  assert (Hno : forall username, randomNameIs "someoneelse" username = false).
  { intros username. unfold randomNameIs.
    assert (E : exec true RANDOM_BOT_NAME_PATTERN "someoneelse" = None)
      by (vm_compute; reflexivity).
    now rewrite E. }
  split; [exact Hno|].
  intros id text username random H. unfold isChangesetBotNote in H.
  simpl author_username in H. rewrite Hno, andb_false_r, orb_false_r in H.
  apply andb_prop in H as [H _]. apply String.eqb_eq in H. now symmetry.
Qed.

Lemma random_name_matcher_witness :
  isChangesetBotNote
    (mkNote 7 "project_123_bot7x_ab12" "__Generated By Changesets GitLab Bot__")
    "project_123_bot7x" true = true.
Proof.
  destruct random_name_matcher as (_ & H & _).
  apply (H 7%Z "__Generated By Changesets GitLab Bot__"). reflexivity.
Defined.

(** ** The message without a plan *)

Lemma block_says_no_changesets markdownTable (releasePlan : ReleasePlan) (s : string) :
  changesets releasePlan = [] ->
  includes (getReleasePlanMessage markdownTable (Some releasePlan) ++ s)
    "<details><summary>This MR includes no changesets</summary>" = true.
Proof.
  intros Hcs. apply includes_app_l, includes_prefix.
  destruct (releasePlanMessage_summary markdownTable releasePlan) as [rest E].
  rewrite E, Hcs. simpl. now destruct rest.
Qed.

(** C6 (amended).  Without a release plan the block is empty: the message of
    [getAbsentMessage] holds no collapsible block at all (no [<] when the
    commit and the link hold none).  With a plan that has no changeset the
    message holds the block whose summary says "no changesets". *)
Theorem absent_message_without_plan markdownTable (commitSha url : string) :
  getReleasePlanMessage markdownTable None = "" /\
  (includes commitSha "<" = false ->
   includes url "<" = false ->
   includes (getAbsentMessage markdownTable commitSha url None) "<" = false /\
   includes (getAbsentMessage markdownTable commitSha url None) "<details>" = false) /\
  (forall releasePlan,
      changesets releasePlan = [] ->
      includes (getAbsentMessage markdownTable commitSha url (Some releasePlan))
        "<details><summary>This MR includes no changesets</summary>" = true).
Proof.
  split; [reflexivity|]. split.
  - intros Hsha Hurl.
    assert (H : includes (getAbsentMessage markdownTable commitSha url None) "<" = false).
    { unfold getAbsentMessage, getReleasePlanMessage.
      rewrite !includes_char_app, Hsha, Hurl. vm_compute. reflexivity. }
    split; [exact H | now apply includes_first_char].
  - intros releasePlan Hcs. unfold getAbsentMessage.
    repeat first [ apply block_says_no_changesets | apply includes_app_r ].
    exact Hcs.
Qed.

Lemma absent_message_without_plan_witness :
  includes (getAbsentMessage sampleTable "4f2a9c1" "https://gitlab.example/g/p/-/new/feat" None)
    "<details>" = false
  /\ includes (getAbsentMessage sampleTable "4f2a9c1" "https://gitlab.example/g/p/-/new/feat"
                 (Some emptyPlan))
       "<details><summary>This MR includes no changesets</summary>" = true.
Proof.
  destruct (absent_message_without_plan sampleTable "4f2a9c1"
              "https://gitlab.example/g/p/-/new/feat") as (_ & Hnone & Hempty).
  split.
  - assert (Hs : includes "4f2a9c1" "<" = false) by (vm_compute; reflexivity).
    assert (Hu : includes "https://gitlab.example/g/p/-/new/feat" "<" = false)
      by (vm_compute; reflexivity).
    exact (proj2 (Hnone Hs Hu)).
  - apply Hempty. reflexivity.
Defined.

(** C6 as stated fails: with no plan the message says "no changesets"
    nowhere, and it differs from the message of the empty plan. *)
Lemma absent_message_of_null_plan_has_no_summary :
  includes (getAbsentMessage sampleTable "4f2a9c1" "https://gitlab.example/g/p/-/new/feat" None)
    "no changesets" = false
  /\ includes (getAbsentMessage sampleTable "4f2a9c1" "https://gitlab.example/g/p/-/new/feat" None)
       "<details>" = false
  /\ includes (getAbsentMessage sampleTable "4f2a9c1" "https://gitlab.example/g/p/-/new/feat"
                 (Some emptyPlan))
       "no changesets" = true.
Proof. repeat split; vm_compute; reflexivity. Qed.

(** ** The locator, one listing *)

Lemma not_marked_not_ours (note : NoteSchema) (username : string) (random : bool) :
  includes (body note) generatedByBotNote = false ->
  isChangesetBotNote note username random = false.
Proof. intros H. unfold isChangesetBotNote. rewrite H. apply andb_false_r. Qed.

Lemma isChangesetBotNote_spec (note : NoteSchema) (username : string) (random : bool) :
  isChangesetBotNote note username random = true <->
  (author_username note = username
   \/ (random = true /\ randomNameIs (author_username note) username = true))
  /\ includes (body note) generatedByBotNote = true.
Proof.
  unfold isChangesetBotNote.
  rewrite andb_true_iff, orb_true_iff, andb_true_iff, String.eqb_eq. reflexivity.
Qed.

Lemma exact_match_any_pass (note : NoteSchema) (username : string) (random : bool) :
  isChangesetBotNote note username false = true ->
  isChangesetBotNote note username random = true.
Proof.
  rewrite !isChangesetBotNote_spec. intros [[H|[H _]] Hb]; [|discriminate].
  split; [now left | exact Hb].
Qed.

(** What one element of the listing yields. *)
Lemma scanNotes_cons (item : DiscussionOrNote) (others : list DiscussionOrNote)
      (username : string) (random : bool) :
  scanNotes (item :: others) username random =
  match scanNotes [item] username random with
  | Some info => Some info
  | None => scanNotes others username random
  end.
Proof.
  destruct item as [d|n]; simpl.
  - destruct (notes d) as [ns|]; [|reflexivity].
    now destruct (find _ ns).
  - destruct (String.eqb (noteable_type n) "MergeRequest"); [|reflexivity].
    now destruct (isChangesetBotNote (mr_note n) username random).
Qed.

(** The first element of the listing that yields a handle wins. *)
Lemma scanNotes_first (items : list DiscussionOrNote) (username : string)
      (random : bool) (info : NoteInfo) :
  scanNotes items username random = Some info <->
  exists before item after,
    items = (before ++ item :: after)%list /\
    (forall other, In other before -> scanNotes [other] username random = None) /\
    scanNotes [item] username random = Some info.
Proof.
  induction items as [|x items IH].
  - split; [discriminate|]. intros (before & item & after & E & _).
    now destruct before.
  - rewrite scanNotes_cons. split.
    + destruct (scanNotes [x] username random) as [i|] eqn:Ex.
      * intros [= ->]. exists [], x, items. repeat split; [|exact Ex]. intros ? [].
      * intros H. apply IH in H as (before & item & after & -> & Hb & Hi).
        exists (x :: before), item, after. repeat split; [|exact Hi].
        intros other [<-|Hin]; [exact Ex | now apply Hb].
    + intros (before & item & after & E & Hb & Hi).
      destruct before as [|y before]; simpl in E.
      * injection E as <- <-. now rewrite Hi.
      * injection E as <- ->. rewrite (Hb x (or_introl eq_refl)). apply IH.
        exists before, item, after. repeat split; [|exact Hi].
        intros other Hin. apply Hb. now right.
Qed.


(** A flat note: the exact user name, or with [random] the captured base
    name, and the marker. *)
Lemma scanNotes_flat (n : MergeRequestNoteSchema) (username : string) (random : bool)
      (info : NoteInfo) :
  scanNotes [ANote n] username random = Some info <->
  noteable_type n = "MergeRequest" /\
  isChangesetBotNote (mr_note n) username random = true /\
  info = mkNoteInfo None (note_id (mr_note n)).
Proof.
  simpl. destruct (String.eqb_spec (noteable_type n) "MergeRequest") as [E|ne].
  - destruct (isChangesetBotNote (mr_note n) username random).
    + split; [now intros [= <-] | now intros (_ & _ & ->)].
    + split; [discriminate | now intros (_ & ? & _)].
  - split; [discriminate | now intros (? & _)].
Qed.

(** A discussion: the first nested note with the exact user name and the
    marker, in either pass. *)
Lemma scanNotes_nested (d : DiscussionSchema) (username : string) (random : bool) :
  scanNotes [ADiscussion d] username random =
  match notes d with
  | Some ns =>
      option_map (fun note => mkNoteInfo (Some (discussion_id d)) (note_id note))
        (find (fun note => isChangesetBotNote note username false) ns)
  | None => None
  end.
Proof. simpl. destruct (notes d) as [ns|]; [|reflexivity]. now destruct (find _ ns). Qed.

(** A handle always points at a note of the listing that carries the marker
    and whose author is the user, by name or by pattern. *)
Lemma scanNotes_sound (items : list DiscussionOrNote) (username : string)
      (random : bool) (info : NoteInfo) :
  scanNotes items username random = Some info ->
  exists item note,
    In item items /\ In note (notesOfItem item) /\
    note_id note = noteId info /\
    isChangesetBotNote note username random = true.
Proof.
  intros H. apply scanNotes_first in H as (before & item & after & -> & _ & Hi).
  exists item. destruct item as [d|n].
  - rewrite scanNotes_nested in Hi. unfold notesOfItem.
    destruct (notes d) as [ns|]; [|discriminate].
    destruct (find _ ns) as [note|] eqn:Ef; [|discriminate].
    injection Hi as <-. apply find_some in Ef as [Hin Hm].
    exists note. repeat split; trivial.
    + apply in_or_app. right. now left.
    + now apply exact_match_any_pass.
  - apply scanNotes_flat in Hi as (Ht & Hm & ->).
    exists (mr_note n). unfold notesOfItem, isMrNote. rewrite Ht. simpl.
    repeat split; trivial.
    + apply in_or_app. right. now left.
    + now left.
Qed.



(** ** Runs: calls and logs *)

Lemma await_eq {A : Type} (p : Result A) (st : St) : await p st = (p, st).
Proof. now destruct p. Qed.

Lemma calls_addEvent (kind e : Event) (st : St) :
  calls kind (addEvent e st) = calls kind st + (if isCall kind e then 1 else 0).
Proof.
  unfold calls, addEvent. simpl. rewrite filter_app, length_app. simpl.
  now destruct (isCall kind e).
Qed.

Lemma callDiscussionsAll_eq (w : World) (st : St) :
  callDiscussionsAll w st =
  (mapResult (map ADiscussion) (discussionsAll w (calls CallDiscussionsAll st)),
   addEvent CallDiscussionsAll st).
Proof.
  unfold callDiscussionsAll, bind, countCalls, emit. simpl.
  now rewrite await_eq.
Qed.

Lemma callNotesAll_eq (w : World) (st : St) :
  callNotesAll w st =
  (mapResult (map ANote) (notesAll w (calls CallNotesAll st)),
   addEvent CallNotesAll st).
Proof.
  unfold callNotesAll, bind, countCalls, emit. simpl.
  now rewrite await_eq.
Qed.

Lemma callGetUsername_eq (w : World) (st : St) :
  callGetUsername w st =
  (getUsername w (calls CallGetUsername st), addEvent CallGetUsername st).
Proof.
  unfold callGetUsername, bind, countCalls, emit. simpl.
  now rewrite await_eq.
Qed.

Lemma listing_eq (w : World) (commentType : string) (st : St) :
  (if String.eqb commentType "discussion" then callDiscussionsAll w else callNotesAll w) st =
  (listingAnswer w commentType (calls (listingCall commentType) st),
   addEvent (listingCall commentType) st).
Proof.
  unfold listingAnswer, listingCall.
  destruct (String.eqb commentType "discussion");
    [apply callDiscussionsAll_eq | apply callNotesAll_eq].
Qed.

Lemma calls_username_after_listing (commentType : string) (st : St) :
  calls CallGetUsername (addEvent (listingCall commentType) st) = calls CallGetUsername st.
Proof.
  rewrite calls_addEvent. unfold listingCall.
  destruct (String.eqb commentType "discussion"); simpl; lia.
Qed.

Lemma calls_listing_after_pass (commentType : string) (st : St) :
  calls (listingCall commentType)
    (addEvent CallGetUsername (addEvent (listingCall commentType) st))
  = S (calls (listingCall commentType) st).
Proof.
  rewrite !calls_addEvent. unfold listingCall.
  destruct (String.eqb commentType "discussion"); simpl; lia.
Qed.

Lemma calls_username_after_pass (commentType : string) (st : St) :
  calls CallGetUsername
    (addEvent CallGetUsername (addEvent (listingCall commentType) st))
  = S (calls CallGetUsername st).
Proof.
  rewrite calls_addEvent, calls_username_after_listing. simpl. lia.
Qed.

(** One pass of the locator, step by step. *)
Lemma getNoteInfoPass_eq (w : World) (commentType : string) (random : bool)
      (retry : M (option NoteInfo)) (st : St) :
  getNoteInfoPass w commentType random retry st =
  let st1 := addEvent (listingCall commentType) st in
  let st2 := addEvent CallGetUsername st1 in
  match listingAnswer w commentType (calls (listingCall commentType) st) with
  | Rejected e => (Rejected e, st1)
  | Resolved items =>
      match getUsername w (calls CallGetUsername st) with
      | Rejected e => (Rejected e, st2)
      | Resolved username =>
          match scanNotes items username random with
          | Some info => (Resolved (Some info), st2)
          | None => if random then (Resolved None, st2) else retry st2
          end
      end
  end.
Proof.
  unfold getNoteInfoPass. unfold bind at 1. rewrite listing_eq.
  destruct (listingAnswer w commentType _) as [items|e]; [|reflexivity].
  unfold bind. rewrite callGetUsername_eq, calls_username_after_listing.
  destruct (getUsername w _) as [username|e]; [|reflexivity].
  destruct (scanNotes items username random); [reflexivity|].
  now destruct random.
Qed.

(** ** Runs: what is never a write *)

Lemma quiet_ret {A : Type} (a : A) : quiet (ret a).
Proof. intros st. exists []. simpl. now rewrite app_nil_r. Qed.

Lemma quiet_throw {A : Type} (e : JsValue) : quiet (@throw A e).
Proof. intros st. exists []. simpl. now rewrite app_nil_r. Qed.

Lemma quiet_await {A : Type} (p : Result A) : quiet (await p).
Proof. destruct p; [apply quiet_ret | apply quiet_throw]. Qed.

Lemma quiet_emit (e : Event) : isWrite e = false -> quiet (emit e).
Proof. intros H st. exists [e]. simpl. split; [reflexivity | now constructor]. Qed.

Lemma quiet_bind {A B : Type} (c : M A) (f : A -> M B) :
  quiet c -> (forall a, quiet (f a)) -> quiet (bind c f).
Proof.
  intros Hc Hf st. unfold bind. destruct (Hc st) as (evs1 & E1 & F1).
  destruct (c st) as [[a|e] st1]; simpl in E1.
  - destruct (Hf a st1) as (evs2 & E2 & F2).
    exists (evs1 ++ evs2)%list. rewrite E2, E1, app_assoc.
    split; [reflexivity | now apply Forall_app].
  - now exists evs1.
Qed.

Lemma quiet_attempt {A : Type} (c : M A) : quiet c -> quiet (attempt c).
Proof.
  intros Hc st. destruct (Hc st) as (evs & E & F). exists evs.
  unfold attempt. now destruct (c st).
Qed.

Lemma quiet_countCalls (kind : Event) : quiet (countCalls kind).
Proof. intros st. exists []. simpl. now rewrite app_nil_r. Qed.

Lemma quiet_promiseAll3 {A B C : Type} (a : M A) (b : M B) (c : M C) :
  quiet a -> quiet b -> quiet c -> quiet (promiseAll3 a b c).
Proof.
  intros Ha Hb Hc. unfold promiseAll3.
  apply quiet_bind; [now apply quiet_attempt|]. intros ra.
  apply quiet_bind; [now apply quiet_attempt|]. intros rb.
  apply quiet_bind; [now apply quiet_attempt|]. intros rc.
  destruct ra, rb, rc; first [apply quiet_ret | apply quiet_throw].
Qed.

Create HintDb quiet.

#[local] Hint Resolve quiet_ret quiet_throw quiet_await quiet_countCalls
  quiet_attempt quiet_promiseAll3 : quiet.

Ltac quiet_step :=
  first [ apply quiet_bind; [|intros ?]
        | apply quiet_emit; reflexivity
        | solve [auto with quiet] ].

Lemma quiet_getNoteInfoPass (w : World) (commentType : string) (random : bool)
      (retry : M (option NoteInfo)) :
  quiet retry -> quiet (getNoteInfoPass w commentType random retry).
Proof.
  intros Hr. unfold getNoteInfoPass.
  apply quiet_bind.
  { destruct (String.eqb commentType "discussion");
      [unfold callDiscussionsAll | unfold callNotesAll]; repeat quiet_step. }
  intros items. apply quiet_bind; [unfold callGetUsername; repeat quiet_step|].
  intros username. destruct (scanNotes items username random); [apply quiet_ret|].
  destruct random; [apply quiet_ret | exact Hr].
Qed.

Lemma quiet_getNoteInfo (w : World) (commentType : string) (random : bool) :
  quiet (getNoteInfo w commentType random).
Proof.
  unfold getNoteInfo. apply quiet_getNoteInfoPass, quiet_getNoteInfoPass, quiet_ret.
Qed.

Lemma quiet_changedPackagesOrFallback (w : World) (p : Result MergeRequestChangesSchema) :
  quiet (changedPackagesOrFallback w p).
Proof.
  unfold changedPackagesOrFallback. apply quiet_bind; [now apply quiet_emit|]. intros _.
  destruct (getChangedPackages w _) as [r|err]; [apply quiet_ret|].
  unfold onChangedPackagesError. apply quiet_bind; [|intros _; apply quiet_ret].
  assert (Hset : forall s, quiet (setErrFromFetchingChangedFiles s)).
  { intros s st. exists []. simpl. now rewrite app_nil_r. }
  destruct err as [| | | | | | |[] ? ?]; first [apply Hset | repeat quiet_step].
Qed.

Lemma quiet_gather (w : World) (env : Env) : quiet (gather w env).
Proof.
  unfold gather. apply quiet_bind.
  - apply quiet_attempt. repeat quiet_step.
  - intros p. apply quiet_promiseAll3;
      [apply quiet_getNoteInfo | apply quiet_await | apply quiet_changedPackagesOrFallback].
Qed.

Lemma quiet_logText (label : string) (v : JsValue) (otherwise : string) :
  quiet (logText label v otherwise).
Proof. unfold logText. destruct v as [| | | | |[t|]| |]; now apply quiet_emit. Qed.

Lemma quiet_catchBlock {A : Type} (err : JsValue) : quiet (@catchBlock A err).
Proof.
  unfold catchBlock. apply quiet_bind; [|intros _; apply quiet_throw].
  destruct (isGitLabAPIError err); [|apply quiet_ret].
  apply quiet_bind; [now apply quiet_emit|]. intros _.
  apply quiet_bind; [apply quiet_logText|]. intros _. apply quiet_logText.
Qed.

Lemma quiet_writes {A : Type} (c : M A) (st : St) :
  quiet c -> writes (log (snd (c st))) = writes (log st).
Proof.
  intros Hc. destruct (Hc st) as (evs & -> & F). unfold writes.
  rewrite filter_app.
  assert (E : filter isWrite evs = []).
  { induction F as [|e evs He _ IH]; simpl; [reflexivity | now rewrite He]. }
  now rewrite E, app_nil_r.
Qed.

(** ** Runs: the shape of [comment] *)

Lemma changedPackagesOrFallback_eq (w : World) (p : Result MergeRequestChangesSchema)
      (st : St) :
  changedPackagesOrFallback w p st =
  let st1 := addEvent CallGetChangedPackages st in
  match getChangedPackages w (mapResult (fun x => map new_path (changes x)) p) with
  | Resolved r => (Resolved r, st1)
  | Rejected err =>
      (Resolved fallbackPackages,
       match err with
       | VError true message _ => mkSt (log st1) (fetchErrorBlock message)
       | _ => addEvent (CaptureException err) (addEvent (ConsoleError [err]) st1)
       end)
  end.
Proof.
  unfold changedPackagesOrFallback, bind, emit. simpl.
  destruct (getChangedPackages w _) as [r|err]; [reflexivity|].
  destruct err as [| | | | | | |[] ? ?]; reflexivity.
Qed.

Lemma gather_eq (w : World) (env : Env) (st : St) :
  gather w env st =
  let st1 := addEvent CallShowChanges st in
  let (ra, st2) := getNoteInfo w (GITLAB_COMMENT_TYPE env) false st1 in
  let (rc, st3) := changedPackagesOrFallback w (showChanges w) st2 in
  (match ra, hasChangesetBeenAdded (showChanges w), rc with
   | Resolved x, Resolved y, Resolved z => Resolved (x, y, z)
   | Rejected e, _, _ => Rejected e
   | _, Rejected e, _ => Rejected e
   | _, _, Rejected e => Rejected e
   end, st3).
Proof.
  unfold gather, promiseAll3, bind, attempt, emit. simpl.
  rewrite await_eq. fold (addEvent CallShowChanges st).
  destruct (getNoteInfo w _ false _) as [ra st2].
  rewrite await_eq.
  destruct (changedPackagesOrFallback w _ st2) as [rc st3].
  destruct ra, (hasChangesetBeenAdded (showChanges w)), rc; reflexivity.
Qed.

Lemma catchBlock_eq {A : Type} (err : JsValue) (st : St) :
  @catchBlock A err st =
  (Rejected err, mkSt (log st ++ diagnostics err) (errFromFetchingChangedFiles st)).
Proof.
  unfold catchBlock, diagnostics, bind.
  destruct (isGitLabAPIError err).
  - unfold emit, logText, textEvent, throw. simpl.
    destruct (getProp (causeOf err) "request") as [| | | | |[t|]| |];
      destruct (getProp (causeOf err) "response") as [| | | | |[t'|]| |];
      simpl; rewrite <- !app_assoc; reflexivity.
  - unfold ret, throw. simpl. rewrite app_nil_r. now destruct st.
Qed.

Lemma activeBranch_spec (env : Env) (mrBranch : string) :
  activeBranch env = Some mrBranch <->
  CI_MERGE_REQUEST_SOURCE_BRANCH_NAME env = Some mrBranch /\
  mrBranch <> "" /\ startsWith mrBranch "changeset-release" = false.
Proof.
  unfold activeBranch.
  destruct (CI_MERGE_REQUEST_SOURCE_BRANCH_NAME env) as [b|].
  - destruct (String.eqb_spec b "") as [->|ne]; simpl.
    + split; [discriminate | intros ([= <-] & H & _); now elim H].
    + destruct (startsWith b "changeset-release") eqn:Es.
      * split; [discriminate | intros ([= <-] & _ & H); congruence].
      * split; [intros [= <-]; auto | now intros ([= <-] & _)].
  - split; [discriminate | now intros (? & _)].
Qed.

(** A run that enters the [try] block. *)
Lemma comment_active markdownTable (w : World) (env : Env) (mrBranch : string) (st : St) :
  activeBranch env = Some mrBranch ->
  comment markdownTable w env st =
  match gather w env st with
  | (Resolved (noteInfo, hasChangeset, (changedPackages, releasePlan)), st1) =>
      let body :=
        prComment markdownTable w env mrBranch hasChangeset changedPackages releasePlan
          (errFromFetchingChangedFiles st1) in
      if String.eqb (GITLAB_COMMENT_TYPE env) "discussion"
         || String.eqb (GITLAB_COMMENT_TYPE env) "note"
      then (writeAnswer w, addEvent (writeCallFor (GITLAB_COMMENT_TYPE env) noteInfo body) st1)
      else (Rejected (invalidCommentType env),
            mkSt (log st1 ++ diagnostics (invalidCommentType env))
              (errFromFetchingChangedFiles st1))
  | (Rejected err, st1) =>
      (Rejected err, mkSt (log st1 ++ diagnostics err) (errFromFetchingChangedFiles st1))
  end.
Proof.
  intros H. apply activeBranch_spec in H as (Hb & Hne & Hrel).
  unfold comment. rewrite Hb, Hrel.
  destruct (String.eqb_spec mrBranch ""); [contradiction|].
  unfold tryBlock. unfold bind at 1.
  destruct (gather w env st) as [[[[noteInfo hasChangeset] [pkgs plan]]|err] st1];
    [|apply catchBlock_eq].
  unfold bind, getErrFromFetchingChangedFiles, writeStep, writeCallFor.
  destruct (String.eqb (GITLAB_COMMENT_TYPE env) "discussion").
  - simpl. destruct noteInfo; unfold apiWrite, bind, emit, ret; simpl; now rewrite await_eq.
  - destruct (String.eqb (GITLAB_COMMENT_TYPE env) "note"); simpl.
    + destruct noteInfo; unfold apiWrite, bind, emit, ret; simpl; now rewrite await_eq.
    + unfold throw. apply catchBlock_eq.
Qed.

(** A run outside a merge request, or on a release branch. *)
Lemma comment_inactive markdownTable (w : World) (env : Env) (st : St) :
  activeBranch env = None ->
  exists evs,
    comment markdownTable w env st
    = (Resolved tt, mkSt (log st ++ evs) (errFromFetchingChangedFiles st))
    /\ Forall (fun e => exists msg, e = ConsoleWarn msg) evs.
Proof.
  unfold activeBranch, comment.
  destruct (CI_MERGE_REQUEST_SOURCE_BRANCH_NAME env) as [b|].
  - destruct (String.eqb b ""); simpl.
    + intros _. eexists [_]. split; [reflexivity|]. repeat constructor. now eexists.
    + destruct (startsWith b "changeset-release"); [|discriminate].
      intros _. exists []. rewrite app_nil_r. split; [now destruct st | constructor].
  - intros _. eexists [_]. split; [reflexivity|]. repeat constructor. now eexists.
Qed.

Lemma invalidCommentType_is_not_api_error (env : Env) :
  diagnostics (invalidCommentType env) = [].
Proof. reflexivity. Qed.

Lemma gather_writes (w : World) (env : Env) (st : St) :
  writes (log (snd (gather w env st))) = writes (log st).
Proof. apply quiet_writes, quiet_gather. Qed.

Lemma diagnostics_writes (err : JsValue) : writes (diagnostics err) = [].
Proof.
  unfold diagnostics, textEvent. destruct (isGitLabAPIError err); [|reflexivity].
  destruct (getProp (causeOf err) "request") as [| | | | |[t|]| |];
    destruct (getProp (causeOf err) "response") as [| | | | |[t'|]| |]; reflexivity.
Qed.

Lemma writes_app (l1 l2 : list Event) : writes (l1 ++ l2) = (writes l1 ++ writes l2)%list.
Proof. apply filter_app. Qed.

Lemma isWrite_writeCallFor (commentType : string) (noteInfo : option NoteInfo) (body : string) :
  isWrite (writeCallFor commentType noteInfo body) = true.
Proof.
  unfold writeCallFor. now destruct (String.eqb commentType "discussion"), noteInfo.
Qed.


(** The writes of a run that enters the [try] block and reaches the join. *)
Lemma run_reaching_join markdownTable (w : World) (env : Env) (mrBranch : string)
      noteInfo hasChangeset changedPackages releasePlan (st1 : St) :
  activeBranch env = Some mrBranch ->
  gather w env initial
  = (Resolved (noteInfo, hasChangeset, (changedPackages, releasePlan)), st1) ->
  let body :=
    prComment markdownTable w env mrBranch hasChangeset changedPackages releasePlan
      (errFromFetchingChangedFiles st1) in
  run markdownTable w env =
  (if String.eqb (GITLAB_COMMENT_TYPE env) "discussion"
      || String.eqb (GITLAB_COMMENT_TYPE env) "note"
   then (writeAnswer w, log st1 ++ [writeCallFor (GITLAB_COMMENT_TYPE env) noteInfo body])%list
   else (Rejected (invalidCommentType env), log st1))
  /\ writes (log st1) = [].
Proof.
  intros Ha Hg body. split.
  - unfold run. rewrite (comment_active _ _ _ _ _ Ha), Hg. fold body.
    destruct (_ || _); simpl; [reflexivity|]. now rewrite app_nil_r.
  - pose proof (gather_writes w env initial) as H. now rewrite Hg in H.
Qed.

(** With a valid comment type such a run writes once, and its outcome is that
    of the write call. *)
Lemma run_valid_type markdownTable (w : World) (env : Env) (mrBranch : string)
      noteInfo hasChangeset changedPackages releasePlan (st1 : St) :
  activeBranch env = Some mrBranch ->
  gather w env initial
  = (Resolved (noteInfo, hasChangeset, (changedPackages, releasePlan)), st1) ->
  GITLAB_COMMENT_TYPE env = "discussion" \/ GITLAB_COMMENT_TYPE env = "note" ->
  fst (run markdownTable w env) = writeAnswer w /\
  writes (snd (run markdownTable w env))
  = [writeCallFor (GITLAB_COMMENT_TYPE env) noteInfo
       (prComment markdownTable w env mrBranch hasChangeset changedPackages releasePlan
          (errFromFetchingChangedFiles st1))].
Proof.
  intros Ha Hg Ht.
  destruct (run_reaching_join markdownTable _ _ _ _ _ _ _ _ Ha Hg) as [Hrun Hq].
  assert (Hvalid : String.eqb (GITLAB_COMMENT_TYPE env) "discussion"
                   || String.eqb (GITLAB_COMMENT_TYPE env) "note" = true).
  { destruct Ht as [-> | ->]; reflexivity. }
  rewrite Hvalid in Hrun. rewrite Hrun. split; [reflexivity|].
  simpl snd. rewrite writes_app, Hq. unfold writes. simpl.
  now rewrite isWrite_writeCallFor.
Qed.


(** ** The locator, two passes *)

Lemma getNoteInfo_first_pass (w : World) (commentType : string) (st : St)
      (items : list DiscussionOrNote) (username : string) (info : NoteInfo) :
  listingAnswer w commentType (calls (listingCall commentType) st) = Resolved items ->
  getUsername w (calls CallGetUsername st) = Resolved username ->
  scanNotes items username false = Some info ->
  getNoteInfo w commentType false st = (Resolved (Some info), afterPass commentType st).
Proof.
  intros Hl Hu Hs. unfold getNoteInfo. rewrite getNoteInfoPass_eq, Hl, Hu, Hs. reflexivity.
Qed.

Lemma getNoteInfo_second_pass (w : World) (commentType : string) (st : St)
      (items1 items2 : list DiscussionOrNote) (username1 username2 : string) :
  listingAnswer w commentType (calls (listingCall commentType) st) = Resolved items1 ->
  getUsername w (calls CallGetUsername st) = Resolved username1 ->
  scanNotes items1 username1 false = None ->
  listingAnswer w commentType (S (calls (listingCall commentType) st)) = Resolved items2 ->
  getUsername w (S (calls CallGetUsername st)) = Resolved username2 ->
  getNoteInfo w commentType false st
  = (Resolved (scanNotes items2 username2 true),
     afterPass commentType (afterPass commentType st)).
Proof.
  intros Hl1 Hu1 Hs1 Hl2 Hu2. unfold getNoteInfo.
  rewrite getNoteInfoPass_eq, Hl1, Hu1, Hs1. cbv zeta.
  rewrite getNoteInfoPass_eq. cbv zeta.
  rewrite calls_listing_after_pass, calls_username_after_pass, Hl2, Hu2.
  now destruct (scanNotes items2 username2 true).
Qed.



(** C2.  [getNoteInfo] scans in two passes.  When the first listing and user
    name are fetched, the first pass is the scan without random matching;
    when it finds nothing, the listing and the user name are fetched once
    more and the result is that of the scan with random matching, [None]
    (null) when it fails too.  In a scan the first element that yields a
    handle wins; a flat note yields one when its author is the user name, or
    with random matching when the pattern captures the user name from it,
    and its body holds the marker; a discussion yields its first nested note
    whose author is exactly the user name and whose body holds the marker,
    whether random matching is on or not. *)
Theorem getNoteInfo_two_pass (w : World) (commentType : string) (st : St)
        (items1 : list DiscussionOrNote) (username1 : string) :
  listingAnswer w commentType (calls (listingCall commentType) st) = Resolved items1 ->
  getUsername w (calls CallGetUsername st) = Resolved username1 ->
  (forall info,
      scanNotes items1 username1 false = Some info ->
      getNoteInfo w commentType false st
      = (Resolved (Some info), afterPass commentType st)) /\
  (scanNotes items1 username1 false = None ->
   forall items2 username2,
     listingAnswer w commentType (S (calls (listingCall commentType) st)) = Resolved items2 ->
     getUsername w (S (calls CallGetUsername st)) = Resolved username2 ->
     getNoteInfo w commentType false st
     = (Resolved (scanNotes items2 username2 true),
        afterPass commentType (afterPass commentType st))) /\
  (forall items username random info,
      scanNotes items username random = Some info <->
      exists before item after,
        items = (before ++ item :: after)%list /\
        (forall other, In other before -> scanNotes [other] username random = None) /\
        scanNotes [item] username random = Some info) /\
  (forall n username random info,
      scanNotes [ANote n] username random = Some info <->
      noteable_type n = "MergeRequest" /\
      ((author_username (mr_note n) = username
        \/ (random = true /\ randomNameIs (author_username (mr_note n)) username = true))
       /\ includes (body (mr_note n)) generatedByBotNote = true) /\
      info = mkNoteInfo None (note_id (mr_note n))) /\
  (forall d username random,
      scanNotes [ADiscussion d] username random =
      match notes d with
      | Some ns =>
          option_map (fun note => mkNoteInfo (Some (discussion_id d)) (note_id note))
            (find (fun note =>
                     String.eqb (author_username note) username
                     && includes (body note) generatedByBotNote) ns)
      | None => None
      end).
Proof.
  intros Hl Hu. split; [|split; [|split; [|split]]].
  - intros info Hs. now apply getNoteInfo_first_pass with items1 username1.
  - intros Hs items2 username2 Hl2 Hu2.
    now apply getNoteInfo_second_pass with items1 username1.
  - apply scanNotes_first.
  - intros n username random info.
    rewrite scanNotes_flat, isChangesetBotNote_spec. reflexivity.
  - intros d username random. rewrite scanNotes_nested.
    destruct (notes d) as [ns|]; [|reflexivity]. f_equal.
    induction ns as [|x ns IH]; [reflexivity|]. simpl.
    unfold isChangesetBotNote at 1. simpl. rewrite orb_false_r, IH. reflexivity.
Qed.

Lemma getNoteInfo_two_pass_witness :
  getNoteInfo sampleWorld "note" false initial
  = (Resolved (Some (mkNoteInfo None 41)), afterPass "note" (afterPass "note" initial)).
Proof.
  destruct (getNoteInfo_two_pass sampleWorld "note" initial
              [ANote (mkMrNote botNote "MergeRequest")] "project_123_bot7x"
              eq_refl eq_refl) as (_ & H & _).
  apply (H eq_refl [ANote (mkMrNote botNote "MergeRequest")] "project_123_bot7x"
           eq_refl eq_refl).
Defined.

(** ** The write step *)

Lemma gather_resolved (w : World) (env : Env) (st st1 : St)
      noteInfo hasChangeset (found : list string * option ReleasePlan) :
  gather w env st = (Resolved (noteInfo, hasChangeset, found), st1) ->
  exists st2,
    getNoteInfo w (GITLAB_COMMENT_TYPE env) false (addEvent CallShowChanges st)
    = (Resolved noteInfo, st2)
    /\ hasChangesetBeenAdded (showChanges w) = Resolved hasChangeset
    /\ changedPackagesOrFallback w (showChanges w) st2 = (Resolved found, st1).
Proof.
  rewrite gather_eq. cbv zeta.
  destruct (getNoteInfo w _ false _) as [ra st2].
  destruct (changedPackagesOrFallback w (showChanges w) st2) as [rc st3] eqn:Ec.
  destruct ra as [x|], (hasChangesetBeenAdded (showChanges w)) as [y|], rc as [z|];
    try discriminate.
  intros [= -> -> -> ->]. exists st2. rewrite Ec. repeat split.
Qed.

Lemma calls_after_showChanges (kind : Event) :
  isCall kind CallShowChanges = false ->
  calls kind (addEvent CallShowChanges initial) = 0.
Proof. intros H. rewrite calls_addEvent, H. reflexivity. Qed.

Lemma isCall_listing_showChanges (commentType : string) :
  isCall (listingCall commentType) CallShowChanges = false.
Proof. unfold listingCall. now destruct (String.eqb commentType "discussion"). Qed.




(** ** The writes of a run *)

Lemma writtenBody_isWrite (e : Event) (text : string) :
  writtenBody e = Some text -> isWrite e = true.
Proof. destruct e; simpl; intros H; try discriminate; reflexivity. Qed.

Lemma writtenBody_writeCallFor (commentType : string) (noteInfo : option NoteInfo)
      (text : string) :
  writtenBody (writeCallFor commentType noteInfo text) = Some text.
Proof.
  unfold writeCallFor. now destruct (String.eqb commentType "discussion"), noteInfo.
Qed.

(** A run writes nothing, or once: the body [prComment] composes. *)
Lemma run_writes markdownTable (w : World) (env : Env) :
  writes (snd (run markdownTable w env)) = [] \/
  exists mrBranch noteInfo hasChangeset changedPackages releasePlan st1,
    activeBranch env = Some mrBranch /\
    gather w env initial
    = (Resolved (noteInfo, hasChangeset, (changedPackages, releasePlan)), st1) /\
    (GITLAB_COMMENT_TYPE env = "discussion" \/ GITLAB_COMMENT_TYPE env = "note") /\
    writes (snd (run markdownTable w env))
    = [writeCallFor (GITLAB_COMMENT_TYPE env) noteInfo
         (prComment markdownTable w env mrBranch hasChangeset changedPackages releasePlan
            (errFromFetchingChangedFiles st1))].
Proof.
  destruct (activeBranch env) as [mrBranch|] eqn:Ha.
  - destruct (gather w env initial)
      as [[[[noteInfo hasChangeset] [pkgs plan]]|err] st1] eqn:Hg.
    + destruct (run_reaching_join markdownTable _ _ _ _ _ _ _ _ Ha Hg) as [Hrun Hq].
      rewrite Hrun.
      destruct (String.eqb_spec (GITLAB_COMMENT_TYPE env) "discussion") as [Ed|nd];
        [|destruct (String.eqb_spec (GITLAB_COMMENT_TYPE env) "note") as [En|nn]]; simpl.
      * right. exists mrBranch, noteInfo, hasChangeset, pkgs, plan, st1.
        repeat split; auto.
        rewrite writes_app, Hq. unfold writes. simpl.
        now rewrite isWrite_writeCallFor.
      * right. exists mrBranch, noteInfo, hasChangeset, pkgs, plan, st1.
        repeat split; auto.
        rewrite writes_app, Hq. unfold writes. simpl.
        now rewrite isWrite_writeCallFor.
      * left. exact Hq.
    + left. unfold run. rewrite (comment_active _ _ _ _ _ Ha), Hg. simpl.
      rewrite writes_app, diagnostics_writes, app_nil_r.
      pose proof (gather_writes w env initial) as H. now rewrite Hg in H.
  - left. destruct (comment_inactive markdownTable w env initial Ha) as (evs & E & F).
    unfold run. rewrite E. simpl. clear E.
    induction F as [|e evs [msg ->] _ IH]; [reflexivity | exact IH].
Qed.

(** C3.  Both messages hold the marker, whatever the plan and whatever is
    appended; so does the body of every write call of every run.  A note
    whose body lacks the marker is not a note of the bot, whoever its author
    is, and the locator never returns a handle to it. *)
Theorem sentinel_invariant markdownTable (w : World) (env : Env) :
  (forall commitSha url releasePlan errBlock,
      includes (getAbsentMessage markdownTable commitSha url releasePlan ++ errBlock)
        "Generated By Changesets GitLab Bot" = true /\
      includes (getApproveMessage markdownTable commitSha url releasePlan ++ errBlock)
        "Generated By Changesets GitLab Bot" = true) /\
  (forall e text,
      In e (snd (run markdownTable w env)) ->
      writtenBody e = Some text ->
      includes text "Generated By Changesets GitLab Bot" = true) /\
  (forall note username random,
      includes (body note) "Generated By Changesets GitLab Bot" = false ->
      isChangesetBotNote note username random = false) /\
  (forall items username random info,
      scanNotes items username random = Some info ->
      exists item note,
        In item items /\ In note (notesOfItem item) /\
        note_id note = noteId info /\
        includes (body note) "Generated By Changesets GitLab Bot" = true).
Proof.
  split; [|split; [|split]].
  - intros. split; [apply absent_has_marker | apply approve_has_marker].
  - intros e text Hin Hb.
    assert (Hw : In e (writes (snd (run markdownTable w env)))).
    { apply filter_In. split; [exact Hin | now apply writtenBody_isWrite with text]. }
    destruct (run_writes markdownTable w env)
      as [E | (b & ni & hc & pk & pl & st1 & _ & _ & _ & E)]; rewrite E in Hw.
    + destruct Hw.
    + destruct Hw as [<-|[]]. rewrite writtenBody_writeCallFor in Hb.
      injection Hb as <-. apply prComment_has_marker.
  - exact not_marked_not_ours.
  - intros items username random info H.
    apply scanNotes_sound in H as (item & note & Hi & Hn & Hid & Hm).
    exists item, note. repeat split; trivial.
    now apply isChangesetBotNote_spec in Hm.
Qed.

Lemma sentinel_invariant_witness :
  isChangesetBotNote (mkNote 9 "project_123_bot7x" "Looks good to me")
    "project_123_bot7x" true = false.
Proof.
  destruct (sentinel_invariant sampleTable sampleWorld (sampleEnv "note"))
    as (_ & _ & H & _).
  apply H. reflexivity.
Defined.

(** ** An unknown comment type *)

(** C9 (amended).  With a comment type that is neither [discussion] nor
    [note] no run performs a create or edit call.  The run that enters the
    [try] block and passes the join rejects with the error "Invalid comment
    type"; the run outside a merge request or on a release branch returns
    without an error. *)
Theorem invalid_comment_type markdownTable (w : World) (env : Env) :
  GITLAB_COMMENT_TYPE env <> "discussion" ->
  GITLAB_COMMENT_TYPE env <> "note" ->
  writes (snd (run markdownTable w env)) = [] /\
  (forall mrBranch joined st1,
      activeBranch env = Some mrBranch ->
      gather w env initial = (Resolved joined, st1) ->
      fst (run markdownTable w env) = Rejected (invalidCommentType env) /\
      messageOf (invalidCommentType env)
      = "Invalid comment type " ++ dquote ++ GITLAB_COMMENT_TYPE env ++ dquote
        ++ ", should be " ++ dquote ++ "discussion" ++ dquote
        ++ " or " ++ dquote ++ "note" ++ dquote) /\
  (activeBranch env = None -> fst (run markdownTable w env) = Resolved tt).
Proof.
  intros Hd Hn. split; [|split].
  - destruct (run_writes markdownTable w env)
      as [E | (b & ni & hc & pk & pl & st1 & _ & _ & [Ht|Ht] & _)]; [exact E | |];
      contradiction.
  - intros mrBranch [[noteInfo hasChangeset] [pkgs plan]] st1 Ha Hg.
    destruct (run_reaching_join markdownTable _ _ _ _ _ _ _ _ Ha Hg) as [Hrun _].
    rewrite Hrun.
    destruct (String.eqb_spec (GITLAB_COMMENT_TYPE env) "discussion"); [contradiction|].
    destruct (String.eqb_spec (GITLAB_COMMENT_TYPE env) "note"); [contradiction|].
    split; reflexivity.
  - intros Ha. destruct (comment_inactive markdownTable w env initial Ha) as (evs & E & _).
    unfold run. now rewrite E.
Qed.

Lemma invalid_comment_type_witness :
  writes (snd (run sampleTable sampleWorld (sampleEnv "thread"))) = []
  /\ fst (run sampleTable sampleWorld (sampleEnv "thread"))
     = Rejected (invalidCommentType (sampleEnv "thread")).
Proof.
  destruct (invalid_comment_type sampleTable sampleWorld (sampleEnv "thread"))
    as (Hw & Hr & _); [discriminate | discriminate |].
  split; [exact Hw|].
  edestruct (Hr "feat/parser") as [H _]; [reflexivity | vm_compute; reflexivity | exact H].
Defined.

(** C9 as stated fails: outside a merge request pipeline a run with an
    unknown comment type warns and returns; no error is raised. *)
Lemma unknown_comment_type_outside_merge_request :
  GITLAB_COMMENT_TYPE (pushEnv "thread") <> "discussion"
  /\ GITLAB_COMMENT_TYPE (pushEnv "thread") <> "note"
  /\ run sampleTable sampleWorld (pushEnv "thread")
     = (Resolved tt,
        [ConsoleWarn "[changesets-gitlab:comment] It should only be used on MR"]).
Proof. repeat split; try discriminate. Qed.

(** ** A failure of discovery *)

Lemma getNoteInfoPass_err (w : World) (commentType : string) (random : bool)
      (retry : M (option NoteInfo)) (st : St) :
  (forall st', errFromFetchingChangedFiles (snd (retry st')) = errFromFetchingChangedFiles st') ->
  errFromFetchingChangedFiles (snd (getNoteInfoPass w commentType random retry st))
  = errFromFetchingChangedFiles st.
Proof.
  intros Hr. rewrite getNoteInfoPass_eq. cbv zeta.
  destruct (listingAnswer w commentType _); [|reflexivity].
  destruct (getUsername w _); [|reflexivity].
  destruct (scanNotes _ _ _); [reflexivity|].
  destruct random; [reflexivity|]. now rewrite Hr.
Qed.

(** The locator leaves [errFromFetchingChangedFiles] alone. *)
Lemma getNoteInfo_err (w : World) (commentType : string) (random : bool) (st : St) :
  errFromFetchingChangedFiles (snd (getNoteInfo w commentType random st))
  = errFromFetchingChangedFiles st.
Proof.
  unfold getNoteInfo. apply getNoteInfoPass_err. intros st'.
  now apply getNoteInfoPass_err.
Qed.

Lemma fetchErrorBlock_has_message (message : string) :
  includes (fetchErrorBlock message) message = true.
Proof. unfold fetchErrorBlock. find_needle. Qed.

(** The join of a run whose discovery fails. *)
Lemma gather_after_failed_discovery (w : World) (env : Env) (err : JsValue) :
  getChangedPackages w (mapResult (fun x => map new_path (changes x)) (showChanges w))
  = Rejected err ->
  exists st3,
    gather w env initial
    = (match fst (getNoteInfo w (GITLAB_COMMENT_TYPE env) false
                    (addEvent CallShowChanges initial)),
             hasChangesetBeenAdded (showChanges w) with
       | Resolved x, Resolved y => Resolved (x, y, fallbackPackages)
       | Rejected e, _ => Rejected e
       | _, Rejected e => Rejected e
       end, st3)
    /\ errFromFetchingChangedFiles st3 = fetchBlockOf err
    /\ (isValidationError err = false ->
        exists before,
          log st3 = (before ++ [ConsoleError [err]; CaptureException err])%list).
Proof.
  intros Hd. rewrite gather_eq. cbv zeta.
  pose proof (getNoteInfo_err w (GITLAB_COMMENT_TYPE env) false
                (addEvent CallShowChanges initial)) as He.
  destruct (getNoteInfo w _ false _) as [ra st2]. simpl in He.
  rewrite changedPackagesOrFallback_eq, Hd. cbv zeta.
  eexists. split; [|split].
  - simpl fst. destruct ra, (hasChangesetBeenAdded (showChanges w)); reflexivity.
  - destruct err as [| | | | | | |[] ? ?]; simpl; try exact He; reflexivity.
  - intros Hv. eexists.
    destruct err as [| | | | | | |[] ? ?]; try discriminate Hv;
      simpl; rewrite <- app_assoc; reflexivity.
Qed.

(** C7.  When discovery fails the failure is absorbed: the branch of the
    join resolves to the placeholder package and no plan.  When moreover the
    note lookup and the fetch of the changes succeed and the comment type is
    valid, the one write call carries the message for the placeholder
    followed by the block of the failure.  For a validation error that block
    is the collapsible block with the message of the error; for any other
    value it is empty, and the value is logged and handed to
    [captureException]. *)
Theorem discovery_failure_is_absorbed markdownTable (w : World) (env : Env)
        (mrBranch : string) (err : JsValue) :
  activeBranch env = Some mrBranch ->
  getChangedPackages w (mapResult (fun x => map new_path (changes x)) (showChanges w))
  = Rejected err ->
  let made := snd (run markdownTable w env) in
  let commitSha := CI_MERGE_REQUEST_SOURCE_BRANCH_SHA env in
  let url := addChangesetUrl w env mrBranch ["@fake-scope/fake-pkg"] in
  (forall st, exists st',
      changedPackagesOrFallback w (showChanges w) st
      = (Resolved (["@fake-scope/fake-pkg"], None), st')) /\
  (forall noteInfo hasChangeset st2,
      getNoteInfo w (GITLAB_COMMENT_TYPE env) false (addEvent CallShowChanges initial)
      = (Resolved noteInfo, st2) ->
      hasChangesetBeenAdded (showChanges w) = Resolved hasChangeset ->
      GITLAB_COMMENT_TYPE env = "discussion" \/ GITLAB_COMMENT_TYPE env = "note" ->
      fst (run markdownTable w env) = writeAnswer w /\
      writes made
      = [writeCallFor (GITLAB_COMMENT_TYPE env) noteInfo
           ((if hasChangeset
             then getApproveMessage markdownTable commitSha url None
             else getAbsentMessage markdownTable commitSha url None)
            ++ fetchBlockOf err)]) /\
  (isValidationError err = true ->
   fetchBlockOf err = fetchErrorBlock (messageOf err) /\
   includes (fetchBlockOf err) (messageOf err) = true /\
   startsWith (fetchBlockOf err) "<details><summary>" = true) /\
  (isValidationError err = false ->
   fetchBlockOf err = "" /\
   In (ConsoleError [err]) made /\ In (CaptureException err) made).
Proof.
  intros Ha Hd made commitSha url.
  destruct (gather_after_failed_discovery w env err Hd) as (st3 & Hg & He & Hlog).
  split; [|split; [|split]].
  - intros st. rewrite changedPackagesOrFallback_eq, Hd. cbv zeta. now eexists.
  - intros noteInfo hasChangeset st2 Hn Hc Ht.
    rewrite Hn, Hc in Hg. simpl in Hg.
    destruct (run_valid_type markdownTable w env mrBranch _ _ _ _ _ Ha Hg Ht) as [Hr Hw].
    split; [exact Hr|]. fold made in Hw. rewrite He in Hw. exact Hw.
  - intros Hv. destruct err as [| | | | | | |[] message c]; try discriminate Hv.
    simpl. split; [reflexivity|]. split; [apply fetchErrorBlock_has_message | reflexivity].
  - intros Hv. destruct (Hlog Hv) as [before Hb].
    assert (Hcalls : exists after, made = (log st3 ++ after)%list).
    { unfold made, run. rewrite (comment_active _ _ _ _ _ Ha), Hg.
      destruct (fst (getNoteInfo w _ false _)) as [x|e];
        [destruct (hasChangesetBeenAdded (showChanges w)) as [y|e]|].
      - cbv zeta. destruct (_ || _); simpl; eexists; reflexivity.
      - simpl. eexists; reflexivity.
      - simpl. eexists; reflexivity. }
    destruct Hcalls as [after ->]. rewrite Hb.
    split; [|split].
    + destruct err as [| | | | | | |[] ? ?]; try discriminate Hv; reflexivity.
    + apply in_or_app. left. apply in_or_app. right. now left.
    + apply in_or_app. left. apply in_or_app. right. right. now left.
Qed.

Lemma discovery_failure_is_absorbed_witness :
  fst (run sampleTable sampleWorld (sampleEnv "note")) = Resolved tt
  /\ includes (fetchBlockOf (VError true "package.json has no name" VUndefined))
       "package.json has no name" = true
  /\ In (CaptureException (VError false "ENOENT" VUndefined))
       (snd (run sampleTable failingWorld (sampleEnv "note"))).
Proof.
  split; [|split].
  - edestruct (discovery_failure_is_absorbed sampleTable sampleWorld (sampleEnv "note")
                 "feat/parser") as (_ & H & _); [reflexivity | reflexivity |].
    edestruct H as [Hr _]; [vm_compute; reflexivity | reflexivity | now right | exact Hr].
  - edestruct (discovery_failure_is_absorbed sampleTable sampleWorld (sampleEnv "note")
                 "feat/parser") as (_ & _ & H & _); [reflexivity | reflexivity |].
    apply H. reflexivity.
  - edestruct (discovery_failure_is_absorbed sampleTable failingWorld (sampleEnv "note")
                 "feat/parser") as (_ & _ & _ & H); [reflexivity | reflexivity |].
    apply H. reflexivity.
Defined.

(** ** Platform errors *)

Lemma isGitLabAPIError_spec (value : JsValue) :
  isGitLabAPIError value = true <->
  exists isValidation message cause,
    value = VError isValidation message cause /\
    truthy cause = true /\ typeofObject cause = true /\
    forall key, In key (objectKeys cause) -> In key ["description"; "request"; "response"].
Proof.
  assert (Hkeys : forall keys,
             forallb (fun key => existsb (String.eqb key) GITLAB_API_ERROR_CAUSE_KEYS) keys = true
             <-> forall key, In key keys -> In key ["description"; "request"; "response"]).
  { intros keys. rewrite forallb_forall. split; intros H key Hin.
    - apply H in Hin. apply existsb_exists in Hin as (k & Hk & E).
      apply String.eqb_eq in E as ->. exact Hk.
    - apply existsb_exists. exists key. split; [now apply H | apply String.eqb_refl]. }
  split.
  - destruct value as [| | | | | | |v message c]; try discriminate.
    unfold isGitLabAPIError. simpl. rewrite !andb_true_iff, Hkeys.
    intros [[Ht Ho] Hk]. now exists v, message, c.
  - intros (v & message & c & -> & Ht & Ho & Hk).
    unfold isGitLabAPIError. simpl. rewrite Ht, Ho. simpl. now apply Hkeys.
Qed.

(** C10.  A caught value is taken for a platform error exactly when it is an
    [Error] whose cause is truthy, is an object, and has no own key outside
    [description], [request], [response]: a cause [{}], or one without
    [request] and [response], qualifies.  The [catch] block logs the
    diagnostics of such a value and of no other, and rejects with the value
    it caught; so does the run whose [try] block rejects. *)
Theorem api_error_classification :
  (forall value,
      isGitLabAPIError value = true <->
      exists isValidation message cause,
        value = VError isValidation message cause /\
        truthy cause = true /\ typeofObject cause = true /\
        forall key, In key (objectKeys cause) ->
                    In key ["description"; "request"; "response"]) /\
  isGitLabAPIError (VError false "Forbidden" (VObject [])) = true /\
  isGitLabAPIError (VError false "Forbidden" (VObject [("description", VString "403")])) = true /\
  (forall err st,
      @catchBlock unit err st
      = (Rejected err, mkSt (log st ++ diagnostics err) (errFromFetchingChangedFiles st))) /\
  (forall err,
      (isGitLabAPIError err = true ->
       diagnostics err
       = [ConsoleError [getProp (causeOf err) "description"];
          textEvent "request:" (getProp (causeOf err) "request")
            "The error's request could not be used as plain text";
          textEvent "response:" (getProp (causeOf err) "response")
            "The error's response could not be used as plain text"]) /\
      (isGitLabAPIError err = false -> diagnostics err = [])) /\
  (forall markdownTable w env mrBranch err st1,
      activeBranch env = Some mrBranch ->
      gather w env initial = (Rejected err, st1) ->
      run markdownTable w env = (Rejected err, (log st1 ++ diagnostics err)%list)).
Proof.
  split; [exact isGitLabAPIError_spec|].
  split; [reflexivity|]. split; [reflexivity|].
  split; [intros; apply catchBlock_eq|].
  split.
  - intros err. unfold diagnostics. split; intros ->; reflexivity.
  - intros markdownTable w env mrBranch err st1 Ha Hg.
    unfold run. now rewrite (comment_active _ _ _ _ _ Ha), Hg.
Qed.

Lemma api_error_classification_witness :
  run sampleTable failingWorld (sampleEnv "note")
  = (Rejected forbidden,
     [CallShowChanges; CallNotesAll; CallGetChangedPackages;
      ConsoleError [VError false "ENOENT" VUndefined];
      CaptureException (VError false "ENOENT" VUndefined);
      ConsoleError [VString "403 Forbidden"];
      ConsoleError [VString "request:"; VString "PUT /notes/41"];
      ConsoleError [VString "The error's response could not be used as plain text"]]).
Proof.
  destruct api_error_classification as (_ & _ & _ & _ & _ & H).
  apply (H sampleTable failingWorld (sampleEnv "note") "feat/parser" forbidden
           (mkSt [CallShowChanges; CallNotesAll; CallGetChangedPackages;
                  ConsoleError [VError false "ENOENT" VUndefined];
                  CaptureException (VError false "ENOENT" VUndefined)] ""));
    reflexivity.
Defined.

(** * Further properties *)

(** ** Runs that do not start *)

(** X1.  A run without a source branch (missing or empty) warns once and
    returns; a run on a branch that starts with [changeset-release] returns
    in silence.  Neither calls the platform, discovery or the error sink. *)
Theorem inactive_run_calls_nothing markdownTable (w : World) (env : Env) :
  activeBranch env = None ->
  run markdownTable w env =
  (Resolved tt,
   match CI_MERGE_REQUEST_SOURCE_BRANCH_NAME env with
   | Some mrBranch => if String.eqb mrBranch "" then [onlyOnMr] else []
   | None => [onlyOnMr]
   end).
Proof.
  unfold activeBranch, run, comment.
  destruct (CI_MERGE_REQUEST_SOURCE_BRANCH_NAME env) as [b|]; [|reflexivity].
  destruct (String.eqb b ""); [reflexivity|]. simpl.
  destruct (startsWith b "changeset-release"); [reflexivity | discriminate].
Qed.

Lemma inactive_run_calls_nothing_witness :
  run sampleTable sampleWorld
    (mkEnv (Some "changeset-release/main") "https://gitlab.example/g/p" "4f2a9c1"
       "Version Packages" "note" None)
  = (Resolved tt, []).
Proof.
  apply (inactive_run_calls_nothing sampleTable sampleWorld
           (mkEnv (Some "changeset-release/main") "https://gitlab.example/g/p" "4f2a9c1"
              "Version Packages" "note" None)).
  reflexivity.
Defined.

(** ** The calls of the locator *)

Lemma getNoteInfoPass_log (w : World) (commentType : string) (random : bool)
      (retry : M (option NoteInfo)) (st : St) :
  let listing := listingCall commentType in
  log (snd (getNoteInfoPass w commentType random retry st)) = (log st ++ [listing])%list
  \/ log (snd (getNoteInfoPass w commentType random retry st))
     = (log st ++ [listing; CallGetUsername])%list
  \/ (random = false /\
      snd (getNoteInfoPass w commentType random retry st)
      = snd (retry (afterPass commentType st))).
Proof.
  intros listing. rewrite getNoteInfoPass_eq. cbv zeta.
  destruct (listingAnswer w commentType _); [|now left].
  destruct (getUsername w _); simpl; [|right; left; now rewrite <- app_assoc].
  destruct (scanNotes _ _ _); simpl; [right; left; now rewrite <- app_assoc|].
  destruct random; simpl; [right; left; now rewrite <- app_assoc|].
  right. right. split; reflexivity.
Qed.

Lemma getNoteInfo_call_budget_shape (w : World) (commentType : string) (random : bool)
      (st : St) :
  exists evs,
    snd (getNoteInfo w commentType random st)
    = mkSt (log st ++ evs) (errFromFetchingChangedFiles st)
    /\ In evs (locatorLogs commentType random).
Proof.
  assert (Hshape : exists evs,
             log (snd (getNoteInfo w commentType random st)) = (log st ++ evs)%list
             /\ In evs (locatorLogs commentType random)).
  { unfold getNoteInfo, locatorLogs.
    destruct (getNoteInfoPass_log w commentType random
                (getNoteInfoPass w commentType true (ret None)) st)
      as [E | [E | [-> E]]].
    - eexists. split; [exact E|]. destruct random; now left.
    - eexists. split; [exact E|]. destruct random; right; now left.
    - rewrite E.
      destruct (getNoteInfoPass_log w commentType true (ret None)
                  (afterPass commentType st)) as [E2 | [E2 | [H _]]];
        [| |discriminate H]; rewrite E2; unfold afterPass, addEvent; simpl;
        rewrite <- !app_assoc; simpl; eexists; (split; [reflexivity|]).
      + right. right. now left.
      + right. right. right. now left. }
  destruct Hshape as (evs & E & Hin). exists evs.
  split; [|exact Hin].
  pose proof (getNoteInfo_err w commentType random st) as He.
  destruct (snd (getNoteInfo w commentType random st)) as [l e].
  simpl in *. now subst.
Qed.

(** X3.  One call of [getNoteInfo] fetches the listing of its comment type
    (discussions for [discussion], notes for anything else) and the user
    name, in that order, at most twice, and only once when [random] is on;
    it makes no other call and leaves [errFromFetchingChangedFiles] alone. *)
Theorem getNoteInfo_call_budget (w : World) (commentType : string) (random : bool)
        (st : St) :
  exists evs,
    snd (getNoteInfo w commentType random st)
    = mkSt (log st ++ evs) (errFromFetchingChangedFiles st)
    /\ In evs (locatorLogs commentType random)
    /\ count isListing evs <= (if random then 1 else 2)
    /\ count (isCall (listingCall commentType)) evs = count isListing evs.
Proof.
  destruct (getNoteInfo_call_budget_shape w commentType random st) as (evs & E & Hin).
  exists evs. split; [exact E|]. split; [exact Hin|].
  unfold locatorLogs, listingCall in *.
  destruct random, (String.eqb commentType "discussion"); simpl in Hin;
    repeat (destruct Hin as [<-|Hin]; [unfold count; simpl; lia|]);
    destruct Hin.
Qed.

(** ** The calls of a run *)

Lemma diagnostics_are_console_errors (err : JsValue) :
  Forall (fun e => exists args, e = ConsoleError args) (diagnostics err).
Proof.
  unfold diagnostics, textEvent. destruct (isGitLabAPIError err); [|constructor].
  destruct (getProp (causeOf err) "request") as [| | | | |[t|]| |];
    destruct (getProp (causeOf err) "response") as [| | | | |[t'|]| |];
    repeat constructor; eexists; reflexivity.
Qed.

(** The log of the join: the fetch of the changes, the calls of the locator,
    discovery and what its handler logs. *)
Lemma gather_log (w : World) (env : Env) :
  exists noteEvs,
    log (snd (gather w env initial))
    = (CallShowChanges :: noteEvs ++ CallGetChangedPackages :: discoveryLog w)%list
    /\ In noteEvs (locatorLogs (GITLAB_COMMENT_TYPE env) false).
Proof.
  rewrite gather_eq. cbv zeta.
  destruct (getNoteInfo_call_budget_shape w (GITLAB_COMMENT_TYPE env) false
              (addEvent CallShowChanges initial)) as (noteEvs & En & Hin).
  destruct (getNoteInfo w _ false _) as [ra st2]. simpl in En. subst st2.
  rewrite changedPackagesOrFallback_eq. cbv zeta.
  exists noteEvs. split; [|exact Hin]. unfold discoveryLog.
  destruct (getChangedPackages w _) as [r|err].
  - simpl. now rewrite <- ?app_assoc.
  - destruct err as [| | | | | | |[] message c]; simpl; now rewrite <- ?app_assoc.
Qed.

Lemma discoveryLog_count (w : World) (p : Event -> bool) :
  (forall args, p (ConsoleError args) = false) ->
  (forall v, p (CaptureException v) = false) ->
  count p (discoveryLog w) = 0.
Proof.
  intros Hc Hx. unfold discoveryLog.
  destruct (getChangedPackages w _) as [r|err]; [reflexivity|].
  destruct (isValidationError err); [reflexivity|].
  unfold count. simpl. now rewrite Hc, Hx.
Qed.

(** After the join a run logs its write call, or what the [catch] block
    logs. *)
Lemma run_log_after_join markdownTable (w : World) (env : Env) (mrBranch : string) :
  activeBranch env = Some mrBranch ->
  exists tailEvs,
    snd (run markdownTable w env) = (log (snd (gather w env initial)) ++ tailEvs)%list
    /\ ((exists call, tailEvs = [call] /\ isWrite call = true)
        \/ Forall (fun e => exists args, e = ConsoleError args) tailEvs).
Proof.
  intros Ha. unfold run. rewrite (comment_active _ _ _ _ _ Ha).
  destruct (gather w env initial) as [[[[noteInfo hasChangeset] [pkgs plan]]|err] st1].
  - cbv zeta. destruct (_ || _); simpl.
    + eexists. split; [reflexivity|]. left. eexists. split; [reflexivity|].
      apply isWrite_writeCallFor.
    + eexists. split; [reflexivity|]. right. apply diagnostics_are_console_errors.
  - simpl. eexists. split; [reflexivity|]. right. apply diagnostics_are_console_errors.
Qed.

Lemma count_app (p : Event -> bool) (l1 l2 : list Event) :
  count p (l1 ++ l2) = count p l1 + count p l2.
Proof. unfold count. now rewrite filter_app, length_app. Qed.

Lemma count_none (p : Event -> bool) (l : list Event) :
  Forall (fun e => p e = false) l -> count p l = 0.
Proof.
  unfold count. induction 1 as [|e l He _ IH]; simpl; [reflexivity | now rewrite He].
Qed.

Lemma locatorLogs_only (commentType : string) (random : bool) (evs : list Event)
      (p : Event -> bool) :
  p CallDiscussionsAll = false -> p CallNotesAll = false -> p CallGetUsername = false ->
  In evs (locatorLogs commentType random) -> count p evs = 0.
Proof.
  intros Hd Hn Hu Hin. apply count_none.
  unfold locatorLogs, listingCall in Hin.
  destruct random, (String.eqb commentType "discussion"); simpl in Hin;
    repeat (destruct Hin as [<-|Hin]; [repeat constructor; assumption|]); destruct Hin.
Qed.

(** X2.  A run that enters the [try] block fetches the changes of the merge
    request exactly once, before anything else, and calls discovery exactly
    once, whatever fails on the way; it lists the notes or discussions at
    most twice and writes at most once. *)
Theorem shared_fetch_once markdownTable (w : World) (env : Env) (mrBranch : string) :
  activeBranch env = Some mrBranch ->
  let made := snd (run markdownTable w env) in
  hd_error made = Some CallShowChanges /\
  count isShowChanges made = 1 /\
  count isGetChangedPackages made = 1 /\
  count isListing made <= 2 /\
  count isWrite made <= 1.
Proof.
  intros Ha made.
  destruct (run_log_after_join markdownTable w env mrBranch Ha) as (tailEvs & E & Ht).
  destruct (gather_log w env) as (noteEvs & Eg & Hin).
  fold made in E. rewrite Eg in E.
  pose proof (discoveryLog_count w) as Hdisc.
  assert (Htail : forall p, (forall call, isWrite call = true -> p call = false) ->
                            (forall args, p (ConsoleError args) = false) ->
                            count p tailEvs = 0).
  { intros p Hw Hc. apply count_none. destruct Ht as [(call & -> & Hcall) | F].
    - repeat constructor. now apply Hw.
    - clear -F Hc. induction F as [|e l [args ->] _ IH]; constructor; [apply Hc | exact IH]. }
  assert (Hsplit : forall p,
             count p made
             = (if p CallShowChanges then 1 else 0) + count p noteEvs
               + (if p CallGetChangedPackages then 1 else 0) + count p (discoveryLog w)
               + count p tailEvs).
  { intros p. rewrite E.
    change (CallShowChanges :: noteEvs ++ CallGetChangedPackages :: discoveryLog w)%list
      with ([CallShowChanges] ++ noteEvs ++ [CallGetChangedPackages] ++ discoveryLog w)%list.
    rewrite !count_app. unfold count at 1 3. simpl.
    destruct (p CallShowChanges), (p CallGetChangedPackages); simpl; lia. }
  split; [now rewrite E|].
  split; [|split; [|split]].
  - rewrite Hsplit, Hdisc, Htail, (locatorLogs_only _ _ _ _ eq_refl eq_refl eq_refl Hin);
      try reflexivity; intros call; now destruct call.
  - rewrite Hsplit, Hdisc, Htail, (locatorLogs_only _ _ _ _ eq_refl eq_refl eq_refl Hin);
      try reflexivity; intros call; now destruct call.
  - rewrite Hsplit, Hdisc, Htail; try reflexivity; try (intros call; now destruct call).
    simpl. unfold locatorLogs, listingCall in Hin.
    destruct (String.eqb (GITLAB_COMMENT_TYPE env) "discussion"); simpl in Hin;
      repeat (destruct Hin as [<-|Hin]; [unfold count; simpl; lia|]); destruct Hin.
  - rewrite Hsplit, Hdisc, (locatorLogs_only _ _ _ _ eq_refl eq_refl eq_refl Hin);
      try reflexivity. simpl.
    destruct Ht as [(call & -> & Hcall) | F].
    + unfold count. simpl. rewrite Hcall. simpl. lia.
    + rewrite count_none; [lia|]. clear -F.
      induction F as [|e l [args ->] _ IH]; constructor; [reflexivity | exact IH].
Qed.

Lemma shared_fetch_once_witness :
  count isShowChanges (snd (run sampleTable failingWorld (sampleEnv "note"))) = 1
  /\ count isGetChangedPackages (snd (run sampleTable failingWorld (sampleEnv "note"))) = 1.
Proof.
  destruct (shared_fetch_once sampleTable failingWorld (sampleEnv "note") "feat/parser"
              eq_refl) as (_ & H1 & H2 & _).
  split; [exact H1 | exact H2].
Defined.

(** X12.  In a run whose join resolves, the error sink has been called once
    when discovery rejected with a value that is not a [ValidationError],
    whatever that value is, and not at all when discovery resolved or
    rejected with a [ValidationError]: nothing after the join reports to
    the sink. *)
Theorem sink_reports_discovery_only markdownTable (w : World) (env : Env)
        (mrBranch : string) joined (st1 : St) :
  activeBranch env = Some mrBranch ->
  gather w env initial = (Resolved joined, st1) ->
  count isCaptureException (snd (run markdownTable w env))
  = match getChangedPackages w
            (mapResult (fun x => map new_path (changes x)) (showChanges w)) with
    | Resolved _ => 0
    | Rejected err => if isValidationError err then 0 else 1
    end.
Proof.
  intros Ha _.
  destruct (run_log_after_join markdownTable w env mrBranch Ha) as (tailEvs & E & Ht).
  destruct (gather_log w env) as (noteEvs & Eg & Hin).
  rewrite E, Eg.
  change (CallShowChanges :: noteEvs ++ CallGetChangedPackages :: discoveryLog w)%list
    with ([CallShowChanges] ++ noteEvs ++ [CallGetChangedPackages] ++ discoveryLog w)%list.
  rewrite !count_app.
  rewrite (locatorLogs_only _ _ _ _ eq_refl eq_refl eq_refl Hin).
  assert (Htail : count isCaptureException tailEvs = 0).
  { apply count_none. destruct Ht as [(call & -> & Hcall) | F].
    - repeat constructor. now destruct call.
    - clear -F. induction F as [|e l [args ->] _ IH]; constructor; [reflexivity | exact IH]. }
  rewrite Htail. unfold discoveryLog.
  destruct (getChangedPackages w _) as [r|err]; [reflexivity|].
  now destruct (isValidationError err).
Qed.

Lemma sink_reports_discovery_only_witness :
  count isCaptureException (snd (run sampleTable failingWorld (sampleEnv "discussion"))) = 1.
Proof.
  eassert (Hg : gather failingWorld (sampleEnv "discussion") initial = (Resolved _, _))
    by (vm_compute; reflexivity).
  exact (sink_reports_discovery_only sampleTable failingWorld (sampleEnv "discussion")
           "feat/parser" _ _ eq_refl Hg).
Defined.

(** ** The run that succeeds, and the ones that fail *)

(** X4.  When the note lookup, the fetch of the changes and discovery all
    succeed and the comment type is valid, the one write call carries the
    message alone, with no error block: the "detected" message when a
    changed file is a new changeset file and the "not found" message
    otherwise, built from the discovered plan, with a link that lists the
    discovered packages. *)
Theorem successful_run_body markdownTable (w : World) (env : Env) (mrBranch : string)
        (noteInfo : option NoteInfo) (st2 : St) (changed : MergeRequestChangesSchema)
        (changedPackages : list string) (releasePlan : option ReleasePlan) :
  activeBranch env = Some mrBranch ->
  getNoteInfo w (GITLAB_COMMENT_TYPE env) false (addEvent CallShowChanges initial)
  = (Resolved noteInfo, st2) ->
  showChanges w = Resolved changed ->
  getChangedPackages w (Resolved (map new_path (changes changed)))
  = Resolved (changedPackages, releasePlan) ->
  GITLAB_COMMENT_TYPE env = "discussion" \/ GITLAB_COMMENT_TYPE env = "note" ->
  let detected := existsb isNewChangesetFile (changes changed) in
  let commitSha := CI_MERGE_REQUEST_SOURCE_BRANCH_SHA env in
  let url := addChangesetUrl w env mrBranch changedPackages in
  let text :=
    if detected then getApproveMessage markdownTable commitSha url releasePlan
    else getAbsentMessage markdownTable commitSha url releasePlan in
  fst (run markdownTable w env) = writeAnswer w /\
  writes (snd (run markdownTable w env))
  = [writeCallFor (GITLAB_COMMENT_TYPE env) noteInfo text] /\
  startsWith text
    (if detected then "###  🦋  Changeset detected" else "###  ⚠️  No Changeset found")
  = true.
Proof.
  intros Ha Hn Hs Hd Ht detected commitSha url text.
  pose proof (getNoteInfo_err w (GITLAB_COMMENT_TYPE env) false
                (addEvent CallShowChanges initial)) as He.
  rewrite Hn in He. simpl in He.
  assert (Hg : gather w env initial
               = (Resolved (noteInfo, detected, (changedPackages, releasePlan)),
                  addEvent CallGetChangedPackages st2)).
  { rewrite gather_eq. cbv zeta. rewrite Hn, changedPackagesOrFallback_eq, Hs. simpl.
    now rewrite Hd. }
  destruct (run_valid_type markdownTable _ _ _ _ _ _ _ _ Ha Hg Ht) as [Hr Hw].
  split; [exact Hr|]. split.
  - rewrite Hw. simpl errFromFetchingChangedFiles. rewrite He.
    unfold prComment. now rewrite append_nil_r.
  - unfold text, getApproveMessage, getAbsentMessage.
    destruct detected; apply prefix_app.
Qed.

Lemma successful_run_body_witness :
  fst (run sampleTable
         (mkWorld (discussionsAll sampleWorld) (notesAll sampleWorld) (getUsername sampleWorld)
            (showChanges sampleWorld) (fun _ => Resolved (["pkg-a"], Some samplePlan))
            "calm-owls-sing" (Resolved tt))
         (sampleEnv "note"))
  = Resolved tt.
Proof.
  edestruct (successful_run_body sampleTable
               (mkWorld (discussionsAll sampleWorld) (notesAll sampleWorld)
                  (getUsername sampleWorld) (showChanges sampleWorld)
                  (fun _ => Resolved (["pkg-a"], Some samplePlan))
                  "calm-owls-sing" (Resolved tt))
               (sampleEnv "note") "feat/parser") as (H & _);
    [reflexivity | vm_compute; reflexivity | reflexivity | reflexivity | now right | exact H].
Defined.

(** X5.  The promise of the create or edit call is returned without being
    awaited: when the call rejects, the run rejects with the same value and
    the write call is the last thing it logs.  The [catch] block does not
    run, so no diagnostic is logged for a failed write, platform error or
    not. *)
Theorem write_rejection_is_not_caught markdownTable (w : World) (env : Env)
        (mrBranch : string) noteInfo hasChangeset changedPackages releasePlan
        (st1 : St) (e : JsValue) :
  activeBranch env = Some mrBranch ->
  gather w env initial
  = (Resolved (noteInfo, hasChangeset, (changedPackages, releasePlan)), st1) ->
  GITLAB_COMMENT_TYPE env = "discussion" \/ GITLAB_COMMENT_TYPE env = "note" ->
  writeAnswer w = Rejected e ->
  run markdownTable w env
  = (Rejected e,
     (log st1
      ++ [writeCallFor (GITLAB_COMMENT_TYPE env) noteInfo
            (prComment markdownTable w env mrBranch hasChangeset changedPackages
               releasePlan (errFromFetchingChangedFiles st1))])%list).
Proof.
  intros Ha Hg Ht Hw.
  destruct (run_reaching_join markdownTable _ _ _ _ _ _ _ _ Ha Hg) as [Hrun _].
  rewrite Hrun, Hw. now destruct Ht as [-> | ->].
Qed.

Lemma write_rejection_is_not_caught_witness :
  fst (run sampleTable
         (mkWorld (discussionsAll sampleWorld) (notesAll sampleWorld) (getUsername sampleWorld)
            (showChanges sampleWorld) (getChangedPackages sampleWorld)
            "calm-owls-sing" (Rejected forbidden))
         (sampleEnv "note"))
  = Rejected forbidden
  /\ count (fun e => match e with ConsoleError _ => true | _ => false end)
       (snd (run sampleTable
               (mkWorld (discussionsAll sampleWorld) (notesAll sampleWorld)
                  (getUsername sampleWorld) (showChanges sampleWorld)
                  (getChangedPackages sampleWorld) "calm-owls-sing" (Rejected forbidden))
               (sampleEnv "note")))
     = 0.
Proof.
  eassert (Hg : gather
                  (mkWorld (discussionsAll sampleWorld) (notesAll sampleWorld)
                     (getUsername sampleWorld) (showChanges sampleWorld)
                     (getChangedPackages sampleWorld) "calm-owls-sing" (Rejected forbidden))
                  (sampleEnv "note") initial
                = (Resolved (_, _, (_, _)), _)) by (vm_compute; reflexivity).
  rewrite (write_rejection_is_not_caught sampleTable _ (sampleEnv "note") "feat/parser"
             _ _ _ _ _ forbidden eq_refl Hg (or_intror eq_refl) eq_refl).
  split; [reflexivity | vm_compute; reflexivity].
Defined.

Lemma gather_rejected_run markdownTable (w : World) (env : Env) (mrBranch : string)
      (err : JsValue) :
  activeBranch env = Some mrBranch ->
  fst (gather w env initial) = Rejected err ->
  fst (run markdownTable w env) = Rejected err /\ writes (snd (run markdownTable w env)) = [].
Proof.
  intros Ha Hg. unfold run. rewrite (comment_active _ _ _ _ _ Ha).
  pose proof (gather_writes w env initial) as Hq.
  destruct (gather w env initial) as [[x|e] st1]; simpl in Hg; [discriminate|].
  injection Hg as ->. simpl. split; [reflexivity|].
  now rewrite writes_app, diagnostics_writes, app_nil_r.
Qed.

(** X6.  When the fetch of the changes, the first listing or the first
    lookup of the user name fails, the run rejects and performs no create
    or edit call. *)
Theorem failed_read_writes_nothing markdownTable (w : World) (env : Env)
        (mrBranch : string) (e : JsValue) :
  activeBranch env = Some mrBranch ->
  showChanges w = Rejected e
  \/ listingAnswer w (GITLAB_COMMENT_TYPE env) 0 = Rejected e
  \/ (exists items, listingAnswer w (GITLAB_COMMENT_TYPE env) 0 = Resolved items)
     /\ getUsername w 0 = Rejected e ->
  exists err,
    fst (run markdownTable w env) = Rejected err /\
    writes (snd (run markdownTable w env)) = [].
Proof.
  intros Ha H.
  assert (Hg : exists err, fst (gather w env initial) = Rejected err).
  { rewrite gather_eq. cbv zeta.
    destruct H as [Hs | [Hl | [[items Hl] Hu]]].
    - destruct (getNoteInfo w _ false _) as [ra st2].
      destruct (changedPackagesOrFallback w _ st2) as [rc st3].
      rewrite Hs. simpl. destruct ra as [x|e']; destruct rc; eexists; reflexivity.
    - unfold getNoteInfo. rewrite getNoteInfoPass_eq. cbv zeta.
      rewrite (calls_after_showChanges _ (isCall_listing_showChanges _)), Hl.
      destruct (changedPackagesOrFallback w _ _) as [rc st3]. now exists e.
    - unfold getNoteInfo. rewrite getNoteInfoPass_eq. cbv zeta.
      rewrite (calls_after_showChanges _ (isCall_listing_showChanges _)), Hl.
      rewrite (calls_after_showChanges CallGetUsername eq_refl), Hu.
      destruct (changedPackagesOrFallback w _ _) as [rc st3]. now exists e. }
  destruct Hg as [err Hg]. exists err. now apply gather_rejected_run with mrBranch.
Qed.

Lemma failed_read_writes_nothing_witness :
  exists err,
    fst (run sampleTable failingWorld (sampleEnv "note")) = Rejected err /\
    writes (snd (run sampleTable failingWorld (sampleEnv "note"))) = [].
Proof.
  apply (failed_read_writes_nothing sampleTable failingWorld (sampleEnv "note")
           "feat/parser" forbidden); [reflexivity | right; left; reflexivity].
Defined.

(** ** Handles and comment types *)

Lemma scanNotes_discussions (ds : list DiscussionSchema) (username : string)
      (random : bool) (info : NoteInfo) :
  scanNotes (map ADiscussion ds) username random = Some info ->
  exists d ns note,
    In d ds /\ notes d = Some ns /\ In note ns /\
    info = mkNoteInfo (Some (discussion_id d)) (note_id note).
Proof.
  induction ds as [|d ds IH]; [discriminate|].
  simpl map. rewrite scanNotes_cons, scanNotes_nested.
  destruct (notes d) as [ns|] eqn:En.
  - destruct (find _ ns) as [note|] eqn:Ef; simpl.
    + intros [= <-]. apply find_some in Ef as [Hin _].
      exists d, ns, note. repeat split; simpl; auto.
    + intros H. destruct (IH H) as (d' & ns' & note & Hd & Hn & Hin & E).
      exists d', ns', note. repeat split; simpl; auto.
  - intros H. destruct (IH H) as (d' & ns' & note & Hd & Hn & Hin & E).
    exists d', ns', note. repeat split; simpl; auto.
Qed.

Lemma scanNotes_mr_notes (ns : list MergeRequestNoteSchema) (username : string)
      (random : bool) (info : NoteInfo) :
  scanNotes (map ANote ns) username random = Some info ->
  exists n, In n ns /\ info = mkNoteInfo None (note_id (mr_note n)).
Proof.
  induction ns as [|n ns IH]; [discriminate|].
  simpl map. rewrite scanNotes_cons.
  destruct (scanNotes [ANote n] username random) as [i|] eqn:E.
  - intros [= <-]. apply scanNotes_flat in E as (_ & _ & ->). exists n. split; simpl; auto.
  - intros H. destruct (IH H) as (n' & Hin & E'). exists n'. split; simpl; auto.
Qed.

(** In a listing of discussions random matching changes nothing. *)
Lemma scanNotes_discussions_random (ds : list DiscussionSchema) (username : string)
      (random : bool) :
  scanNotes (map ADiscussion ds) username random
  = scanNotes (map ADiscussion ds) username false.
Proof.
  induction ds as [|d ds IH]; [reflexivity|].
  simpl map. rewrite (scanNotes_cons _ _ _ random), (scanNotes_cons _ _ _ false).
  now rewrite !scanNotes_nested, IH.
Qed.

(** Where a handle of [getNoteInfo] comes from, whatever [random]. *)
Lemma getNoteInfo_found (w : World) (commentType : string) (random : bool)
      (st st' : St) (info : NoteInfo) :
  getNoteInfo w commentType random st = (Resolved (Some info), st') ->
  exists k items username r,
    listingAnswer w commentType k = Resolved items /\
    scanNotes items username r = Some info.
Proof.
  unfold getNoteInfo. rewrite getNoteInfoPass_eq. cbv zeta.
  destruct (listingAnswer w commentType (calls (listingCall commentType) st))
    as [items1|] eqn:El1; [|discriminate].
  destruct (getUsername w (calls CallGetUsername st)) as [username1|]; [|discriminate].
  destruct (scanNotes items1 username1 random) as [i|] eqn:Es1.
  - intros [= -> _]. repeat eexists; eassumption.
  - destruct random; [discriminate|].
    rewrite getNoteInfoPass_eq. cbv zeta.
    rewrite calls_listing_after_pass, calls_username_after_pass.
    destruct (listingAnswer w commentType (S (calls (listingCall commentType) st)))
      as [items2|] eqn:El2; [|discriminate].
    destruct (getUsername w (S (calls CallGetUsername st))) as [username2|]; [|discriminate].
    destruct (scanNotes items2 username2 true) as [i|] eqn:Es2; simpl; [|discriminate].
    intros [= -> _]. repeat eexists; eassumption.
Qed.

Lemma listingAnswer_discussion (w : World) (commentType : string) (k : nat)
      (items : list DiscussionOrNote) :
  commentType = "discussion" ->
  listingAnswer w commentType k = Resolved items ->
  exists ds, discussionsAll w k = Resolved ds /\ items = map ADiscussion ds.
Proof.
  intros -> H. unfold listingAnswer in H. simpl in H.
  destruct (discussionsAll w k) as [ds|]; [|discriminate].
  injection H as <-. now exists ds.
Qed.

Lemma listingAnswer_note (w : World) (commentType : string) (k : nat)
      (items : list DiscussionOrNote) :
  commentType <> "discussion" ->
  listingAnswer w commentType k = Resolved items ->
  exists ns, notesAll w k = Resolved ns /\ items = map ANote ns.
Proof.
  intros Hne H. unfold listingAnswer in H.
  destruct (String.eqb_spec commentType "discussion"); [contradiction|].
  destruct (notesAll w k) as [ns|]; [|discriminate].
  injection H as <-. now exists ns.
Qed.

(** X7.  The shape of a handle follows the comment type.  For [discussion]
    it carries the id of a listed discussion and the id of one of its nested
    notes; for any other type it carries no discussion id and the id of a
    listed note.  So an edit of a discussion note always names its
    discussion, and a run never edits a plain note in a discussion run or
    the reverse. *)
Theorem handle_follows_comment_type markdownTable (w : World) (env : Env) :
  (forall commentType random st st' info,
      getNoteInfo w commentType random st = (Resolved (Some info), st') ->
      if String.eqb commentType "discussion" then
        exists k ds d ns note,
          discussionsAll w k = Resolved ds /\ In d ds /\ notes d = Some ns /\
          In note ns /\ info = mkNoteInfo (Some (discussion_id d)) (note_id note)
      else
        exists k ns n,
          notesAll w k = Resolved ns /\ In n ns /\
          info = mkNoteInfo None (note_id (mr_note n))) /\
  (forall e, In e (snd (run markdownTable w env)) ->
             match e with
             | CallEditDiscussionNote d _ _ =>
                 d <> None /\ GITLAB_COMMENT_TYPE env = "discussion"
             | CallCreateDiscussion _ => GITLAB_COMMENT_TYPE env = "discussion"
             | CallEditNote _ _ | CallCreateNote _ => GITLAB_COMMENT_TYPE env = "note"
             | _ => True
             end).
Proof.
  assert (Hshape : forall commentType random st st' info,
             getNoteInfo w commentType random st = (Resolved (Some info), st') ->
             if String.eqb commentType "discussion" then
               exists k ds d ns note,
                 discussionsAll w k = Resolved ds /\ In d ds /\ notes d = Some ns /\
                 In note ns /\ info = mkNoteInfo (Some (discussion_id d)) (note_id note)
             else
               exists k ns n,
                 notesAll w k = Resolved ns /\ In n ns /\
                 info = mkNoteInfo None (note_id (mr_note n))).
  { intros commentType random st st' info H.
    apply getNoteInfo_found in H as (k & items & username & r & Hl & Hs).
    destruct (String.eqb_spec commentType "discussion") as [E|ne].
    - apply (listingAnswer_discussion _ _ _ _ E) in Hl as (ds & Hd & ->).
      apply scanNotes_discussions in Hs as (d & ns & note & Hin & Hn & Hnote & ->).
      now exists k, ds, d, ns, note.
    - apply (listingAnswer_note _ _ _ _ ne) in Hl as (ns & Hn & ->).
      apply scanNotes_mr_notes in Hs as (n & Hin & ->).
      now exists k, ns, n. }
  split; [exact Hshape|].
  intros e Hin.
  destruct (isWrite e) eqn:Hw; [|now destruct e].
  assert (Hin' : In e (writes (snd (run markdownTable w env)))).
  { apply filter_In. now split. }
  destruct (run_writes markdownTable w env)
    as [E | (b & ni & hc & pk & pl & st1 & _ & Hg & Ht & E)]; rewrite E in Hin'.
  { destruct Hin'. }
  destruct Hin' as [<-|[]]. unfold writeCallFor.
  destruct Ht as [Ht | Ht]; rewrite Ht; simpl.
  - destruct ni as [info|]; [|reflexivity]. split; [|reflexivity].
    apply gather_resolved in Hg as (st2 & Hn & _).
    apply Hshape in Hn. rewrite Ht in Hn. simpl in Hn.
    destruct Hn as (k & ds & d & ns & note & _ & _ & _ & _ & ->). discriminate.
  - now destruct ni.
Qed.

Lemma handle_follows_comment_type_witness :
  exists k ns n,
    notesAll sampleWorld k = Resolved ns /\ In n ns /\
    mkNoteInfo None 41 = mkNoteInfo None (note_id (mr_note n)).
Proof.
  destruct (handle_follows_comment_type sampleTable sampleWorld (sampleEnv "note"))
    as [H _].
  eapply (H "note" false initial _ (mkNoteInfo None 41)). vm_compute. reflexivity.
Defined.

(** X8.  In a discussion run the second pass cannot find what the first
    missed: nested notes are matched by exact name in both.  When the
    listing and the user name are the same at both fetches, [getNoteInfo]
    returns what the scan without random matching returns. *)
Theorem discussion_retry_adds_nothing (w : World) (st : St)
        (ds : list DiscussionSchema) (username : string) :
  discussionsAll w (calls CallDiscussionsAll st) = Resolved ds ->
  discussionsAll w (S (calls CallDiscussionsAll st)) = Resolved ds ->
  getUsername w (calls CallGetUsername st) = Resolved username ->
  getUsername w (S (calls CallGetUsername st)) = Resolved username ->
  fst (getNoteInfo w "discussion" false st)
  = Resolved (scanNotes (map ADiscussion ds) username false)
  /\ forall random,
      scanNotes (map ADiscussion ds) username random
      = scanNotes (map ADiscussion ds) username false.
Proof.
  intros Hl1 Hl2 Hu1 Hu2. split; [|intros; apply scanNotes_discussions_random].
  destruct (scanNotes (map ADiscussion ds) username false) as [info|] eqn:Es.
  - rewrite (getNoteInfo_first_pass w "discussion" st (map ADiscussion ds) username info);
      auto.
    unfold listingAnswer, listingCall. simpl. now rewrite Hl1.
  - rewrite (getNoteInfo_second_pass w "discussion" st (map ADiscussion ds)
               (map ADiscussion ds) username username); auto.
    + simpl. now rewrite scanNotes_discussions_random, Es.
    + unfold listingAnswer, listingCall. simpl. now rewrite Hl1.
    + unfold listingAnswer, listingCall. simpl. now rewrite Hl2.
Qed.

Lemma discussion_retry_adds_nothing_witness :
  fst (getNoteInfo sampleWorld "discussion" false initial) = Resolved None.
Proof.
  destruct (discussion_retry_adds_nothing sampleWorld initial
              [mkDiscussion "d1" (Some [botNote])] "project_123_bot7x"
              eq_refl eq_refl eq_refl eq_refl) as [H _].
  exact H.
Defined.

(** ** The logins the randomized-name pattern accepts *)

Lemma charEq_upper (a b : ascii) : charEq true a b = true <-> toUpper a = toUpper b.
Proof.
  unfold charEq. simpl. rewrite orb_true_iff, !Ascii.eqb_eq. split.
  - intros [-> | H]; [reflexivity | exact H].
  - now right.
Qed.

Lemma litRest_upper (lit s s' : string) :
  litRest true lit s = Some s' <-> exists u, s = u ++ s' /\ upper u = upper lit.
Proof.
  revert s; induction lit as [|a lit IH]; intros s; simpl.
  - split.
    + intros [= ->]. now exists "".
    + intros (u & -> & Hu). destruct u; [reflexivity | discriminate].
  - destruct s as [|b s].
    + split; [discriminate|]. intros (u & E & Hu). destruct u; discriminate.
    + destruct (charEq true a b) eqn:Ec.
      * apply charEq_upper in Ec. rewrite IH. split.
        -- intros (u & -> & Hu). exists (String b u). simpl. now rewrite Hu, Ec.
        -- intros (u & E & Hu). destruct u as [|c u]; [discriminate|].
           simpl in E, Hu. injection E as <- ->. injection Hu as _ Hu. now exists u.
      * split; [discriminate|]. intros (u & E & Hu).
        destruct u as [|c u]; [discriminate|]. simpl in E, Hu.
        injection E as <- ->. injection Hu as Hc _.
        assert (charEq true a b = true) by (apply charEq_upper; now symmetry).
        congruence.
Qed.

Lemma allMatch_class (ic : bool) (c : cls) (p : ascii -> bool) (u v : string) :
  (forall a s, clsMatch ic c (String a s) = p a) ->
  allMatch ic c u v = allChars p u.
Proof.
  intros Hc. induction u as [|a u IH]; [reflexivity|].
  cbn [allMatch]. unfold allChars in *. simpl. now rewrite Hc, IH.
Qed.

Lemma clsMatch_alnum (a : ascii) (s : string) :
  clsMatch true (CUnion CDigit (CRange "a" "z")) (String a s) = isAlnum a.
Proof.
  cbn [clsMatch].
  destruct a as [[] [] [] [] [] [] [] []]; vm_compute; reflexivity.
Qed.

Lemma lit_sound (lit : string) (x : MState) (k : Cont) (z : MState) :
  m true (RLit lit) x k = Some z ->
  exists u y, rest x = u ++ rest y /\ upper u = upper lit /\ cap1 y = cap1 x /\ k y = Some z.
Proof.
  cbn [m]. destruct (litRest true lit (rest x)) as [s'|] eqn:E; [|discriminate].
  apply litRest_upper in E as (u & E & Hu). intros H.
  exists u. eexists. split; [|split; [exact Hu|split; [|exact H]]]; [exact E | reflexivity].
Qed.

Lemma plus_sound (c : cls) (p : ascii -> bool) (x : MState) (k : Cont) (z : MState) :
  (forall a s, clsMatch true c (String a s) = p a) ->
  m true (RPlus c) x k = Some z ->
  exists u y, rest x = u ++ rest y /\ u <> "" /\ allChars p u = true /\
              cap1 y = cap1 x /\ k y = Some z.
Proof.
  intros Hc. cbn [m]. destruct (rest x) as [|a s'] eqn:Er; [discriminate|].
  destruct (clsMatch true c (String a s')) eqn:Ea; [|discriminate].
  intros H. apply star_sound in H as (u & v & -> & Hall & Hk).
  exists (String a u). eexists. split; [|split; [discriminate|split; [|split; [|exact Hk]]]].
  - reflexivity.
  - rewrite (allMatch_class _ _ p _ _ Hc) in Hall. rewrite Hc in Ea.
    unfold allChars in *. simpl. now rewrite Ea, Hall.
  - reflexivity.
Qed.

Lemma star_sound_class (c : cls) (p : ascii -> bool) (x : MState) (k : Cont) (z : MState) :
  (forall a s, clsMatch true c (String a s) = p a) ->
  m true (RStar c) x k = Some z ->
  exists u y, rest x = u ++ rest y /\ allChars p u = true /\ cap1 y = cap1 x /\ k y = Some z.
Proof.
  intros Hc. cbn [m]. intros H. apply star_sound in H as (u & v & E & Hall & Hk).
  exists u, (mkMState (consumed x + String.length u) v (cap1 x)).
  split; [exact E|]. split; [|split; [reflexivity | exact Hk]].
  now rewrite (allMatch_class _ _ p _ _ Hc) in Hall.
Qed.

Lemma lit_accepts (lit u s' : string) (k : Cont) :
  upper u = upper lit -> accepts k s' ->
  accepts (fun y => m true (RLit lit) y k) (u ++ s').
Proof.
  intros Hu Hk n cap. cbn [m rest].
  assert (E : litRest true lit (u ++ s') = Some s') by (apply litRest_upper; now exists u).
  rewrite E. apply Hk.
Qed.

Lemma star_accepts (c : cls) (p : ascii -> bool) (u v : string) (k : Cont) :
  (forall a s, clsMatch true c (String a s) = p a) ->
  allChars p u = true -> accepts k v ->
  accepts (fun y => m true (RStar c) y k) (u ++ v).
Proof.
  intros Hc Hu Hk n cap. cbn [m rest consumed cap1].
  apply star_complete; [now rewrite (allMatch_class _ _ p _ _ Hc) | apply Hk].
Qed.

Lemma plus_accepts (c : cls) (p : ascii -> bool) (u v : string) (k : Cont) :
  (forall a s, clsMatch true c (String a s) = p a) ->
  u <> "" -> allChars p u = true -> accepts k v ->
  accepts (fun y => m true (RPlus c) y k) (u ++ v).
Proof.
  intros Hc Hne Hu Hk n cap. destruct u as [|a u]; [now elim Hne|].
  unfold allChars in Hu. simpl in Hu. apply andb_prop in Hu as [Ha Hu].
  cbn [m rest consumed cap1]. simpl append. rewrite Hc, Ha.
  apply star_complete; [now rewrite (allMatch_class _ _ p _ _ Hc) | apply Hk].
Qed.

Lemma eol_accepts : accepts (fun y => m true REol y Some) "".
Proof. intros n cap. cbn [m rest]. discriminate. Qed.

Lemma m_seq (ic : bool) (r1 r2 : regex) (x : MState) (k : Cont) :
  m ic (RSeq r1 r2) x k = m ic r1 x (fun y => m ic r2 y k).
Proof. reflexivity. Qed.

Lemma m_alt (ic : bool) (r1 r2 : regex) (x : MState) (k : Cont) :
  m ic (RAlt r1 r2) x k
  = match m ic r1 x k with Some z => Some z | None => m ic r2 x k end.
Proof. reflexivity. Qed.

Lemma m_capture (ic : bool) (r : regex) (x : MState) (k : Cont) :
  m ic (RCapture r) x k
  = m ic r x (fun y => k (mkMState (consumed y) (rest y)
                            (Some (substring 0 (consumed y - consumed x) (rest x))))).
Proof. reflexivity. Qed.

Lemma seq_accepts (r1 r2 : regex) (k : Cont) (s : string) :
  accepts (fun y => m true r1 y (fun y' => m true r2 y' k)) s ->
  accepts (fun y => m true (RSeq r1 r2) y k) s.
Proof. intros H n cap. exact (H n cap). Qed.

Lemma alt_accepts_l (r1 r2 : regex) (k : Cont) (s : string) :
  accepts (fun y => m true r1 y k) s -> accepts (fun y => m true (RAlt r1 r2) y k) s.
Proof.
  intros H n cap. rewrite m_alt. specialize (H n cap). cbv beta in H.
  destruct (m true r1 _ k); [discriminate | now elim H].
Qed.

Lemma alt_accepts_r (r1 r2 : regex) (k : Cont) (s : string) :
  accepts (fun y => m true r2 y k) s -> accepts (fun y => m true (RAlt r1 r2) y k) s.
Proof.
  intros H n cap. rewrite m_alt. destruct (m true r1 _ k); [discriminate | apply H].
Qed.

Lemma wrap_accepts (wrap : MState -> MState) (k : Cont) (s : string) :
  (forall y, rest (wrap y) = rest y) -> accepts k s -> accepts (fun y => k (wrap y)) s.
Proof.
  intros Hw H n cap. pose proof (Hw (mkMState n s cap)) as Hr.
  destruct (wrap (mkMState n s cap)) as [n' r' c']. simpl in Hr. subst r'. apply H.
Qed.

Lemma capture_accepts (r : regex) (k : Cont) (s : string) :
  (forall wrap, (forall y, rest (wrap y) = rest y) ->
                accepts (fun y => m true r y (fun y' => k (wrap y'))) s) ->
  accepts (fun y => m true (RCapture r) y k) s.
Proof.
  intros H n cap. rewrite m_capture.
  apply (H (fun y => mkMState (consumed y) (rest y)
                       (Some (substring 0 (consumed y - n) s)))).
  reflexivity.
Qed.

Lemma upper_underscore (u : string) : upper u = "_" -> u = "_".
Proof.
  intros Hu. destruct u as [|c [|? ?]]; try discriminate.
  simpl in Hu. injection Hu as Hc. f_equal.
  apply charEq_underscore. apply charEq_upper. now rewrite Hc.
Qed.

(** X9.  The logins the randomized-name pattern matches are exactly those
    made of the scope [project] or [group], [_], one or more digits, [_bot],
    any word characters, [_] and a non-empty alphanumeric suffix, with
    letters in either case. *)
Theorem random_pattern_logins (login : string) :
  exec true RANDOM_BOT_NAME_PATTERN login <> None <-> serviceAccountLogin login.
Proof.
  unfold exec, RANDOM_BOT_NAME_PATTERN. rewrite search_anchored.
  split.
  - destruct (m true _ _ Some) as [z|] eqn:Ez; [intros _ | intros H; now elim H].
    rewrite m_seq, m_capture, m_seq, m_alt in Ez.
    match type of Ez with
    | context [m true (RLit "project") _ ?k] => set (K1 := k) in Ez
    end.
    assert (Hscope : exists scope y,
               login = scope ++ rest y
               /\ (upper scope = "PROJECT" \/ upper scope = "GROUP")
               /\ K1 y = Some z).
    { destruct (m true (RLit "project") _ K1) as [z1|] eqn:E1.
      - injection Ez as ->. apply lit_sound in E1 as (u & y & Er & Hu & _ & Hk).
        exists u, y. split; [exact Er|]. split; [now left | exact Hk].
      - apply lit_sound in Ez as (u & y & Er & Hu & _ & Hk).
        exists u, y. split; [exact Er|]. split; [now right | exact Hk]. }
    clear Ez. destruct Hscope as (scope & y0 & E0 & Hscope & H).
    subst K1. cbv beta in H. rewrite m_seq in H.
    apply lit_sound in H as (u1 & y1 & E1 & Hu1 & _ & H). rewrite m_seq in H.
    apply (plus_sound _ isDigit) in H as (digits & y2 & E2 & Hd & Hdig & _ & H);
      [|reflexivity].
    rewrite m_seq in H.
    apply lit_sound in H as (bot & y3 & E3 & Hbot & _ & H).
    apply (star_sound_class _ isWord) in H as (tail & y4 & E4 & Htail & _ & H);
      [|reflexivity].
    rewrite m_seq in H.
    apply lit_sound in H as (u5 & y5 & E5 & Hu5 & _ & H). rewrite m_seq in H.
    apply (plus_sound _ isAlnum) in H as (suffix & y6 & E6 & Hs & Hsuf & _ & H);
      [|apply clsMatch_alnum].
    cbn [m] in H. destruct (rest y6) eqn:E7; [|discriminate].
    apply upper_underscore in Hu1, Hu5. subst u1 u5.
    cbn [rest] in E5.
    exists scope, digits, bot, tail, suffix.
    split; [rewrite E0, E1, E2, E3, E4, E5, E6; now rewrite append_nil_r|].
    repeat (split; [assumption|]). assumption.
  - intros (scope & digits & bot & tail & suffix & -> & Hscope & Hd & Hdig & Hbot
            & Htail & Hs & Hsuf).
    match goal with
    | |- option_map _ (m true ?r (mkMState 0 ?s None) Some) <> None =>
        assert (H : accepts (fun y => m true r y Some) s)
    end.
    { apply seq_accepts, capture_accepts. intros wrap Hwrap.
      apply seq_accepts.
      assert (Hrest : accepts
                        (fun y =>
                           m true (RSeq (RLit "_")
                                     (RSeq (RPlus CDigit)
                                        (RSeq (RLit "_bot") (RStar CWord)))) y
                             (fun y' =>
                                (fun y0 =>
                                   m true (RSeq (RLit "_")
                                             (RSeq (RPlus (CUnion CDigit (CRange "a" "z")))
                                                REol)) y0 Some) (wrap y')))
                        ("_" ++ digits ++ bot ++ tail ++ "_" ++ suffix)).
      { apply seq_accepts, (lit_accepts "_" "_"); [reflexivity|].
        apply seq_accepts, (plus_accepts _ isDigit); [reflexivity | exact Hd | exact Hdig|].
        apply seq_accepts, (lit_accepts "_bot" bot); [exact Hbot|].
        apply (star_accepts _ isWord); [reflexivity | exact Htail|].
        apply (wrap_accepts wrap
                 (fun y0 =>
                    m true (RSeq (RLit "_")
                              (RSeq (RPlus (CUnion CDigit (CRange "a" "z"))) REol))
                      y0 Some)); [exact Hwrap|].
        apply seq_accepts, (lit_accepts "_" "_"); [reflexivity|].
        rewrite <- (append_nil_r suffix).
        apply seq_accepts, (plus_accepts _ isAlnum);
          [apply clsMatch_alnum | exact Hs | exact Hsuf|].
        apply eol_accepts. }
      destruct Hscope as [Hp | Hg].
      - apply alt_accepts_l, (lit_accepts "project" scope); [exact Hp | exact Hrest].
      - apply alt_accepts_r, (lit_accepts "group" scope); [exact Hg | exact Hrest]. }
    specialize (H 0 None). cbv beta in H.
    destruct (m true _ _ Some); [discriminate | now elim H].
Qed.


Lemma random_pattern_logins_witness :
  exec true RANDOM_BOT_NAME_PATTERN "Group_7_BOT_deploy_k3" <> None.
Proof.
  apply (random_pattern_logins "Group_7_BOT_deploy_k3").
  exists "Group", "7", "_BOT", "_deploy", "k3".
  repeat split; try reflexivity; try discriminate. now right.
Defined.

(** ** The link to add a changeset *)

Lemma encodeURIComponent_app (a b : string) :
  encodeURIComponent (a ++ b) = encodeURIComponent a ++ encodeURIComponent b.
Proof.
  induction a as [|c a IH]; [reflexivity|].
  simpl. rewrite IH. now destruct (uriUnreserved c).
Qed.

Lemma allChars_app (p : ascii -> bool) (a b : string) :
  allChars p (a ++ b) = allChars p a && allChars p b.
Proof.
  unfold allChars. induction a as [|c a IH]; [reflexivity|].
  simpl. now rewrite IH, andb_assoc.
Qed.

Lemma hexDigit_safe (n : nat) : uriSafe (hexDigit n) = true.
Proof.
  unfold hexDigit.
  do 16 (destruct n as [|n]; [reflexivity|]). simpl. now destruct n.
Qed.

(** An escaped component holds only unreserved characters and escapes. *)
Lemma encodeURIComponent_safe (s : string) :
  allChars uriSafe (encodeURIComponent s) = true.
Proof.
  induction s as [|c s IH]; [reflexivity|].
  simpl. rewrite allChars_app, IH, andb_true_r.
  destruct (uriUnreserved c) eqn:Ec.
  - unfold allChars, uriSafe. simpl. now rewrite Ec.
  - unfold allChars. simpl. now rewrite !hexDigit_safe.
Qed.

Lemma allChars_excludes (p : ascii -> bool) (s : string) (c : ascii) :
  allChars p s = true -> p c = false -> includes s (String c "") = false.
Proof.
  intros Hs Hc. induction s as [|x s IH]; [reflexivity|].
  unfold allChars in Hs. simpl in Hs. apply andb_prop in Hs as [Hx Hs].
  rewrite includes_unfold. simpl.
  destruct (ascii_dec c x) as [->|]; [congruence|]. now apply IH.
Qed.

Lemma encodeURIComponent_join (lines : list string) :
  encodeURIComponent (join nl lines) = join "%0A" (map encodeURIComponent lines).
Proof.
  unfold join. induction lines as [|l [|l' lines] IH]; [reflexivity | reflexivity|].
  change (String.concat nl (l :: l' :: lines))
    with (l ++ nl ++ String.concat nl (l' :: lines)).
  rewrite !encodeURIComponent_app, IH. reflexivity.
Qed.

(** X10.  The template of the new changeset is assembled from the escaped
    package names, one line each, and the escaped title, between fixed
    escaped delimiters; it holds nothing but unreserved characters and
    escapes, so no package name or title can add [&], [#], [=], a space or a
    line break to the link. *)
Theorem changeset_template_is_escaped (changedPackages : list string) (title : string) :
  getNewChangesetTemplate changedPackages title
  = "---%0A"
    ++ join "%0A" (map (fun x => "%22" ++ encodeURIComponent x ++ "%22%3A%20patch")
                     changedPackages)
    ++ "%0A---%0A%0A" ++ encodeURIComponent title ++ "%0A"
  /\ allChars uriSafe (getNewChangesetTemplate changedPackages title) = true
  /\ (forall c, uriSafe c = false ->
                includes (getNewChangesetTemplate changedPackages title) (String c "") = false).
Proof.
  assert (Hsafe : allChars uriSafe (getNewChangesetTemplate changedPackages title) = true)
    by apply encodeURIComponent_safe.
  split; [|split; [exact Hsafe | intros c Hc; now apply allChars_excludes with uriSafe]].
  unfold getNewChangesetTemplate.
  rewrite !encodeURIComponent_app, encodeURIComponent_join, map_map.
  rewrite (map_ext (fun x => encodeURIComponent (dquote ++ x ++ dquote ++ ": patch"))
             (fun x => "%22" ++ encodeURIComponent x ++ "%22%3A%20patch"));
    [reflexivity|].
  intros x. now rewrite !encodeURIComponent_app.
Qed.

Lemma includes_skip (a b t : string) (c : ascii) :
  includes a (String c "") = false ->
  includes (a ++ b) (String c t) = includes b (String c t).
Proof.
  induction a as [|x a IH]; intros H; [reflexivity|].
  rewrite includes_unfold in H. simpl in H.
  destruct (ascii_dec c x) as [->|ne].
  - now destruct a.
  - change (String x a ++ b) with (String x (a ++ b)).
    rewrite (includes_unfold (String x (a ++ b))). simpl.
    destruct (ascii_dec c x); [contradiction|]. now apply IH.
Qed.

(** X11.  The link carries a [commit_message] parameter only when a message
    is configured and not empty, and then it ends with the escaped message.
    (The project URL, the branch and the file name are assumed to hold no
    [&].) *)
Theorem commit_message_parameter (w : World) (env : Env) (mrBranch : string)
        (changedPackages : list string) :
  includes (CI_MERGE_REQUEST_PROJECT_URL env) "&" = false ->
  includes mrBranch "&" = false ->
  includes (humanId w) "&" = false ->
  match GITLAB_ADD_CHANGESET_MESSAGE env with
  | Some msg =>
      if String.eqb msg "" then
        includes (addChangesetUrl w env mrBranch changedPackages) "&commit_message=" = false
      else
        exists front,
          addChangesetUrl w env mrBranch changedPackages
          = front ++ "&commit_message=" ++ encodeURIComponent msg
          /\ includes front "&commit_message=" = false
  | None =>
      includes (addChangesetUrl w env mrBranch changedPackages) "&commit_message=" = false
  end.
Proof.
  intros Hu Hb Hh.
  set (front := CI_MERGE_REQUEST_PROJECT_URL env ++ "/-/new/" ++ mrBranch
                ++ "?file_name=.changeset/" ++ humanId w ++ ".md&file="
                ++ getNewChangesetTemplate changedPackages (CI_MERGE_REQUEST_TITLE env)).
  assert (Hamp : uriSafe "&" = false) by reflexivity.
  assert (Ht : forall rest,
             includes rest "&" = false ->
             includes (getNewChangesetTemplate changedPackages (CI_MERGE_REQUEST_TITLE env)
                       ++ rest) "&commit_message=" = false).
  { intros rest Hr. apply includes_first_char.
    rewrite includes_char_app, Hr.
    rewrite (allChars_excludes uriSafe); [reflexivity | apply encodeURIComponent_safe | exact Hamp]. }
  assert (Hfront : forall rest,
             includes rest "&" = false ->
             includes (CI_MERGE_REQUEST_PROJECT_URL env ++ "/-/new/" ++ mrBranch
                       ++ "?file_name=.changeset/" ++ humanId w ++ ".md&file="
                       ++ getNewChangesetTemplate changedPackages (CI_MERGE_REQUEST_TITLE env)
                       ++ rest) "&commit_message=" = false).
  { intros rest Hr.
    rewrite (includes_skip _ _ _ _ Hu).
    rewrite (includes_skip "/-/new/" _ _ "&"%char eq_refl).
    rewrite (includes_skip _ _ _ _ Hb).
    rewrite (includes_skip "?file_name=.changeset/" _ _ "&"%char eq_refl).
    rewrite (includes_skip _ _ _ _ Hh).
    change (".md&file=" ++ ?x) with (".md" ++ "&file=" ++ x).
    rewrite (includes_skip ".md" _ _ "&"%char eq_refl).
    rewrite includes_unfold.
    change ("&file=" ++ getNewChangesetTemplate changedPackages (CI_MERGE_REQUEST_TITLE env)
            ++ rest)
      with (String "&" ("file=" ++ getNewChangesetTemplate changedPackages
                                     (CI_MERGE_REQUEST_TITLE env) ++ rest)).
    simpl String.prefix. cbv iota.
    rewrite (includes_skip "file=" _ _ "&"%char eq_refl). now apply Ht. }
  unfold addChangesetUrl.
  destruct (GITLAB_ADD_CHANGESET_MESSAGE env) as [msg|].
  - destruct (String.eqb msg ""); [now apply Hfront|].
    exists front. split.
    + unfold front. now rewrite !append_assoc.
    + unfold front. rewrite <- (append_nil_r (getNewChangesetTemplate _ _)).
      now apply Hfront.
  - now apply Hfront.
Qed.

Lemma commit_message_parameter_witness :
  includes (addChangesetUrl sampleWorld (sampleEnv "note") "feat/parser" ["pkg-a"])
    "&commit_message=" = false.
Proof.
  apply (commit_message_parameter sampleWorld (sampleEnv "note") "feat/parser" ["pkg-a"]);
    vm_compute; reflexivity.
Defined.
